(** * cherrypy.lib.httputil: HTTP header and request-metadata parsing

    A shallow embedding of [cherrypy/lib/httputil.py] and the properties its
    specification states about it.

    Python [str] values are modelled as [string]: sequences of code points
    below 256, which is what a header decoded as ISO-8859-1 holds.  Where
    title-casing is applied, which can leave that range, a [str] is a [text]:
    the list of its code points.  Python [int] is [Z].  Python [float] is an
    IEEE 754 binary64 value, modelled by [spec_float] at precision 53.  A
    call that may raise returns a [result]. *)

From Stdlib Require Import ZArith Ascii String List Bool Lia DecimalString.
From Stdlib Require Import Floats.SpecFloat.
From Stdlib Require Import Sorting.Sorted Sorting.Permutation.
From stdpp Require Import base option list strings gmap fin_maps.

Local Open Scope Z_scope.

(** ** Text with code points of any size *)

Definition text := list Z.

#[global] Instance text_eq_dec : EqDecision text := list_eq_dec.
#[global] Instance text_countable : Countable text := list_countable.

(** ** Exceptions *)

Inductive exn :=
| ValueError (msg : string)
| KeyError (key : text)
| HTTPError (status : Z) (message : string).

Inductive result (A : Type) :=
| Ok (a : A)
| Raise (e : exn).
Arguments Ok {A} a.
Arguments Raise {A} e.

#[global] Instance result_ret : MRet result := fun _ a => Ok a.
#[global] Instance result_bind : MBind result := fun _ _ f m =>
  match m with
  | Ok a => f a
  | Raise e => Raise e
  end.

Definition raises {A} (r : result A) : Prop := exists e, r = Raise e.

(** ** The Python built-ins the module calls *)

Module Py.

Definition ord (c : ascii) : Z := Z.of_N (N_of_ascii c).

Definition chr (n : Z) : ascii := ascii_of_N (Z.to_N n).

Definition dquote : ascii := "034"%char.
Definition backslash : ascii := "092"%char.

Definition between (lo hi : Z) (c : ascii) : bool :=
  (lo <=? ord c) && (ord c <=? hi).

(** [str.isspace] on one code point: TAB..CR, FS..US, SPACE, NEL, NBSP. *)
Definition isspace (c : ascii) : bool :=
  between 9 13 c || between 28 32 c || (ord c =? 133) || (ord c =? 160).

Definition isdigit (c : ascii) : bool := between 48 57 c.

Definition digit_val (c : ascii) : Z := ord c - 48.

(** The code points of a text. *)
Fixpoint codes (s : string) : text :=
  match s with
  | EmptyString => []
  | String c s' => ord c :: codes s'
  end.

(** *** Case mapping

    The case properties and mappings of the Unicode character database, for
    the code points below 256 and for the three code points above them that
    the mappings of those reach: U+0178 (from U+00FF), U+039C (from U+00B5)
    and U+03BC (from U+039C).  The cased code points are the letters A-Z and
    a-z, the ordinal indicators U+00AA and U+00BA, the micro sign U+00B5, and
    U+00C0..U+00FF without the signs U+00D7 and U+00F7.  The lower-case
    mapping of each of them is one code point; the title-case mapping of
    U+00DF is the two letters Ss.  No other code point is given a mapping
    here: the keys that the statements title-case are texts of code points
    below 256. *)
Definition in_range (lo hi c : Z) : bool := (lo <=? c) && (c <=? hi).

Definition is_cased (c : Z) : bool :=
  in_range 65 90 c || in_range 97 122 c
  || (c =? 170) || (c =? 181) || (c =? 186)
  || in_range 192 214 c || in_range 216 246 c || in_range 248 255 c
  || (c =? 376) || (c =? 924) || (c =? 956).

Definition lower_code (c : Z) : Z :=
  if in_range 65 90 c || in_range 192 214 c || in_range 216 222 c then c + 32
  else if c =? 376 then 255
  else if c =? 924 then 956
  else c.

Definition title_codes (c : Z) : text :=
  if in_range 97 122 c || in_range 224 246 c || in_range 248 254 c
  then [c - 32]
  else if c =? 223 then [83; 115]
  else if c =? 181 then [924]
  else if c =? 255 then [376]
  else if c =? 956 then [924]
  else [c].

(** [str.lower] on a text of code points below 256, which it does not
    leave. *)
Definition to_lower (c : ascii) : ascii := chr (lower_code (ord c)).

Fixpoint lower (s : string) : string :=
  match s with
  | EmptyString => EmptyString
  | String c s' => String (to_lower c) (lower s')
  end.

(** [str.title]: a code point that follows a cased one is mapped to lower
    case, any other code point to title case. *)
Fixpoint title_from (previous_is_cased : bool) (s : text) : text :=
  match s with
  | [] => []
  | c :: s' =>
      (if previous_is_cased then [lower_code c] else title_codes c)
      ++ title_from (is_cased c) s'
  end.
Definition title (s : text) : text := title_from false s.

(** [s.startswith(p)] and [s == t] on texts. *)
Fixpoint text_startswith (p s : text) : bool :=
  match p, s with
  | [], _ => true
  | a :: p', b :: s' => (a =? b) && text_startswith p' s'
  | _ :: _, [] => false
  end.

Definition text_eqb (s t : text) : bool := bool_decide (s = t).

Fixpoint lstrip (s : string) : string :=
  match s with
  | EmptyString => EmptyString
  | String c s' => if isspace c then lstrip s' else s
  end.

Fixpoint rstrip (s : string) : string :=
  match s with
  | EmptyString => EmptyString
  | String c s' =>
      match rstrip s' with
      | EmptyString => if isspace c then EmptyString else String c EmptyString
      | r => String c r
      end
  end.

Definition strip (s : string) : string := rstrip (lstrip s).

(** The white space that [int] and [float] skip at both ends of their
    argument: below 128 the set of C's [isspace], TAB..CR and SPACE, without
    FS..US; above, NEL and NBSP, which the conversion to ASCII that precedes
    the parse turns into spaces. *)
Definition number_space (c : ascii) : bool :=
  between 9 13 c || (ord c =? 32) || (ord c =? 133) || (ord c =? 160).

Fixpoint lskip (space : ascii -> bool) (s : string) : string :=
  match s with
  | EmptyString => EmptyString
  | String c s' => if space c then lskip space s' else s
  end.

Fixpoint rskip (space : ascii -> bool) (s : string) : string :=
  match s with
  | EmptyString => EmptyString
  | String c s' =>
      match rskip space s' with
      | EmptyString => if space c then EmptyString else String c EmptyString
      | r => String c r
      end
  end.

Definition number_text (s : string) : string :=
  rskip number_space (lskip number_space s).

(** The first occurrence of [sep]: the text before it and the text after. *)
Fixpoint cut (sep : ascii) (s : string) : option (string * string) :=
  match s with
  | EmptyString => None
  | String c s' =>
      if Ascii.eqb c sep then Some (EmptyString, s')
      else match cut sep s' with
           | Some (a, b) => Some (String c a, b)
           | None => None
           end
  end.

(** [s.split(sep, 1)] for a one-character separator. *)
Definition split1 (sep : ascii) (s : string) : list string :=
  match cut sep s with
  | Some (a, b) => [a; b]
  | None => [s]
  end.

(** [s.split(sep)] for a one-character separator. *)
Fixpoint split (sep : ascii) (s : string) : list string :=
  match s with
  | EmptyString => [EmptyString]
  | String c s' =>
      if Ascii.eqb c sep then EmptyString :: split sep s'
      else match split sep s' with
           | h :: t => String c h :: t
           | [] => [String c EmptyString]
           end
  end.

(** [sep.join(l)] for a one-character separator. *)
Fixpoint join (sep : ascii) (l : list string) : string :=
  match l with
  | [] => EmptyString
  | [x] => x
  | x :: l' => x +:+ String sep (join sep l')
  end.

(** [s.partition(sep)]: head and tail, the tail empty when [sep] is absent. *)
Definition partition (sep : ascii) (s : string) : string * string :=
  match cut sep s with
  | Some (a, b) => (a, b)
  | None => (s, EmptyString)
  end.

Fixpoint count (c : ascii) (s : string) : nat :=
  match s with
  | EmptyString => O
  | String d s' => (if Ascii.eqb d c then 1 else 0) + count c s'
  end.

(** [s.count(ab)] for a two-character pattern: occurrences are counted
    left to right without overlap. *)
Fixpoint count2 (a b : ascii) (s : string) : nat :=
  match s with
  | String d ((String e s'') as s') =>
      if Ascii.eqb d a && Ascii.eqb e b then S (count2 a b s'')
      else count2 a b s'
  | _ => O
  end.

(** [s.replace(ab, c)] for a two-character pattern, scanning left to right
    without overlap. *)
Fixpoint replace2 (a b c : ascii) (s : string) : string :=
  match s with
  | String d ((String e s'') as s') =>
      if Ascii.eqb d a && Ascii.eqb e b then String c (replace2 a b c s'')
      else String d (replace2 a b c s')
  | _ => s
  end.

Fixpoint take (n : nat) (s : string) : string :=
  match n, s with
  | S n', String c s' => String c (take n' s')
  | _, _ => EmptyString
  end.

Fixpoint drop (n : nat) (s : string) : string :=
  match n, s with
  | S n', String _ s' => drop n' s'
  | _, _ => s
  end.

Fixpoint forallb (p : ascii -> bool) (s : string) : bool :=
  match s with
  | EmptyString => true
  | String c s' => p c && forallb p s'
  end.

(** Python compares strings code point by code point. *)
Definition str_lt (a b : string) : bool :=
  match String.compare a b with Lt => true | _ => false end.


(** *** [int(str)]

    The white space around the number is skipped, one sign is accepted, and
    the digits may be grouped by single underscores.  The configurable limit
    on the number of digits is not modelled. *)

Fixpoint digits_from (prev_underscore : bool) (acc : Z) (s : string)
  : option Z :=
  match s with
  | EmptyString => if prev_underscore then None else Some acc
  | String c s' =>
      if isdigit c then digits_from false (10 * acc + digit_val c) s'
      else if Ascii.eqb c "_" then
        if prev_underscore then None else digits_from true acc s'
      else None
  end.

Definition digitpart (s : string) : option Z :=
  match s with
  | String c _ => if isdigit c then digits_from false 0 s else None
  | EmptyString => None
  end.

Definition signed_digits (s : string) : option Z :=
  match s with
  | String c s' =>
      if Ascii.eqb c "-" then Z.opp <$> digitpart s'
      else if Ascii.eqb c "+" then digitpart s'
      else digitpart s
  | EmptyString => None
  end.

Definition hexdigit (n : Z) : ascii :=
  if n <? 10 then chr (48 + n) else chr (87 + n).

(** [repr] of a [str]. *)
Definition printable (c : ascii) : bool :=
  between 32 126 c || (between 161 255 c && negb (ord c =? 173)).

Definition repr_char (quote c : ascii) : string :=
  if Ascii.eqb c quote || Ascii.eqb c backslash
  then String backslash (String c EmptyString)
  else if ord c =? 9 then String backslash "t"
  else if ord c =? 10 then String backslash "n"
  else if ord c =? 13 then String backslash "r"
  else if printable c then String c EmptyString
  else String backslash
         (String "x" (String (hexdigit (ord c / 16))
                        (String (hexdigit (ord c mod 16)) EmptyString))).

Fixpoint repr_body (quote : ascii) (s : string) : string :=
  match s with
  | EmptyString => EmptyString
  | String c s' => repr_char quote c +:+ repr_body quote s'
  end.

Definition repr (s : string) : string :=
  let quote : ascii :=
    if (0 <? count "'" s)%nat && (count dquote s =? 0)%nat
    then dquote else "'"%char in
  String quote (repr_body quote s +:+ String quote EmptyString).

Definition int (s : string) : result Z :=
  match signed_digits (number_text s) with
  | Some n => Ok n
  | None =>
      Raise (ValueError ("invalid literal for int() with base 10: " +:+ repr s))
  end.

End Py.

Coercion Py.codes : string >-> text.

(** *** [float(str)]

    The white space around the number is skipped as for [int]; the rest is
    read as an optionally signed decimal number
    with an optional exponent, or as one of [inf], [infinity], [nan] in any
    case.  Underscores may separate digits.  The decimal value is rounded to
    the nearest binary64 value, ties to even; overflow gives an infinity. *)

Module Float.

Definition prec : Z := 53.
Definition emax : Z := 1024.

Definition float := spec_float.

Definition one : float := S754_finite false 4503599627370496 (-52).

(** [neg] M * 10^E, correctly rounded.  For a negative exponent the
    quotient is taken with more than a thousand extra bits and the
    remainder is folded into a sticky last bit before rounding. *)
Definition of_decimal (neg : bool) (M E : Z) : float :=
  if M =? 0 then S754_zero neg
  else if 0 <=? E then binary_round prec emax neg (Z.to_pos (M * 10 ^ E)) 0
  else
    let den := 10 ^ (- E) in
    let k := 1100 + Z.log2 den in
    let num := M * 2 ^ k in
    let sticky := if num mod den =? 0 then 0 else 1 in
    binary_round prec emax neg (Z.to_pos (2 * (num / den) + sticky)) (- k - 1).

(** Underscores are accepted only between two digits, and are dropped. *)
Fixpoint drop_underscores (prev_digit : bool) (s : string) : option string :=
  match s with
  | EmptyString => Some EmptyString
  | String c s' =>
      if Ascii.eqb c "_" then
        match s' with
        | String d _ =>
            if prev_digit && Py.isdigit d then drop_underscores false s'
            else None
        | EmptyString => None
        end
      else String c <$> drop_underscores (Py.isdigit c) s'
  end.

(** The longest prefix of digits: its value, its length, and the rest. *)
Fixpoint span_digits (acc : Z) (n : Z) (s : string) : Z * Z * string :=
  match s with
  | String c s' =>
      if Py.isdigit c then span_digits (10 * acc + Py.digit_val c) (n + 1) s'
      else (acc, n, s)
  | EmptyString => (acc, n, s)
  end.

Definition exponent (s : string) : option Z :=
  match s with
  | EmptyString => Some 0
  | String c s' =>
      if Ascii.eqb c "e" || Ascii.eqb c "E" then
        let '(neg, body) :=
          match s' with
          | String "-" b => (true, b)
          | String "+" b => (false, b)
          | _ => (false, s')
          end in
        match span_digits 0 0 body with
        | (v, n, EmptyString) =>
            if 0 <? n then Some (if neg then - v else v) else None
        | _ => None
        end
      else None
  end.

Definition number (neg : bool) (s : string) : option float :=
  let '(ip, ni, r1) := span_digits 0 0 s in
  let '(m, nf, r2) :=
    match r1 with
    | String "." r => let '(m, n, r2) := span_digits ip ni r in (m, n - ni, r2)
    | _ => (ip, 0, r1)
    end in
  if 0 <? ni + nf then
    e ← exponent r2; Some (of_decimal neg m (e - nf))
  else None.

Definition unsigned (neg : bool) (s : string) : option float :=
  let l := Py.lower s in
  if String.eqb l "inf" || String.eqb l "infinity" then Some (S754_infinity neg)
  else if String.eqb l "nan" then Some S754_nan
  else s' ← drop_underscores false s; number neg s'.

Definition parse (s : string) : option float :=
  match Py.number_text s with
  | String "-" s' => unsigned true s'
  | String "+" s' => unsigned false s'
  | s' => unsigned false s'
  end.

(** Python's [==] and [<] on floats: both are false when either side is a
    NaN. *)
Definition eqb (x y : float) : bool := SFeqb x y.
Definition ltb (x y : float) : bool := SFltb x y.

Definition is_nan (x : float) : bool :=
  match x with S754_nan => true | _ => false end.

End Float.

(** ** Dictionaries that keep insertion order

    [str(element)] walks [params.items()], so the parameters are kept as an
    association list in insertion order; assigning to a key that is present
    keeps its position. *)

Section Dict.
Context {V : Type}.

Fixpoint dict_get (k : string) (d : list (string * V)) : option V :=
  match d with
  | [] => None
  | (k', v) :: d' => if String.eqb k' k then Some v else dict_get k d'
  end.

Fixpoint dict_set (k : string) (v : V) (d : list (string * V))
  : list (string * V) :=
  match d with
  | [] => [(k, v)]
  | (k', v') :: d' =>
      if String.eqb k' k then (k', v) :: d' else (k', v') :: dict_set k v d'
  end.
End Dict.

(** ** [cgi.parse_header], which [HeaderElement.parse] calls *)

Module Cgi.

(** The index of the semicolon that ends the parameter at the head of [s]:
    the first one at index 0, or with an even number of unescaped double
    quotes before it.  [rest] is [s] from index [i] on. *)
Fixpoint find_end (s : string) (i : nat) (rest : string) : option nat :=
  match rest with
  | EmptyString => None
  | String c rest' =>
      if Ascii.eqb c ";" &&
         ((i =? 0)%nat ||
          Z.even (Z.of_nat (Py.count Py.dquote (Py.take i s))
                  - Z.of_nat (Py.count2 Py.backslash Py.dquote (Py.take i s))))
      then Some i
      else find_end s (S i) rest'
  end.

(** [_parseparam]: one step per leading semicolon.  Every step consumes it,
    so [String.length s] steps are enough. *)
Fixpoint parseparam_steps (fuel : nat) (s : string) : list string :=
  match fuel, s with
  | S fuel', String c s1 =>
      if Ascii.eqb c ";" then
        let end_ := default (String.length s1) (find_end s1 0 s1) in
        Py.strip (Py.take end_ s1) :: parseparam_steps fuel' (Py.drop end_ s1)
      else []
  | _, _ => []
  end.

Definition _parseparam (s : string) : list string :=
  parseparam_steps (String.length s) s.

Definition unquote_value (value : string) : string :=
  match value with
  | String first rest =>
      match String.length rest, String.get (String.length rest - 1) rest with
      | S n, Some last =>
          if Ascii.eqb first Py.dquote && Ascii.eqb last Py.dquote then
            Py.replace2 Py.backslash Py.dquote Py.dquote
              (Py.replace2 Py.backslash Py.backslash Py.backslash
                 (Py.take n rest))
          else value
      | _, _ => value
      end
  | EmptyString => value
  end.

Fixpoint params_of (parts : list string) (pdict : list (string * string))
  : list (string * string) :=
  match parts with
  | [] => pdict
  | p :: parts' =>
      match Py.cut "=" p with
      | Some (name, value) =>
          params_of parts'
            (dict_set (Py.lower (Py.strip name))
                      (unquote_value (Py.strip value)) pdict)
      | None => params_of parts' pdict
      end
  end.

Definition parse_header (line : string) : string * list (string * string) :=
  match _parseparam (String ";" line) with
  | key :: parts => (key, params_of parts [])
  | [] => (EmptyString, [])
  end.

End Cgi.

(** ** HeaderElement

    A parameter value is text, or (under the key [q] of an AcceptElement) a
    nested HeaderElement whose own parameters are text. *)

Inductive param :=
| PStr (s : string)
| PElem (value : string) (params : list (string * string)).

Record HeaderElement := mkHeaderElement {
  value : string;
  params : list (string * param)
}.

Module HeaderElement.

Definition str_params {V} (show : V -> string) (ps : list (string * V))
  : string :=
  fold_right (fun '(k, v) r => ";" +:+ k +:+ "=" +:+ show v +:+ r)
             EmptyString ps.

(** [__str__] of a parameter value. *)
Definition str_param (v : param) : string :=
  match v with
  | PStr s => s
  | PElem val ps => val +:+ str_params id ps
  end.

(** [__str__]: the value, then [;key=val] for each parameter in order. *)
Definition str (self : HeaderElement) : string :=
  value self +:+ str_params str_param (params self).

Definition __lt__ (self other : HeaderElement) : result bool :=
  Ok (Py.str_lt (value self) (value other)).

Definition parse (elementstr : string) : string * list (string * string) :=
  Cgi.parse_header elementstr.

Definition from_str (elementstr : string) : HeaderElement :=
  let '(ival, ps) := parse elementstr in
  mkHeaderElement ival (map (fun '(k, v) => (k, PStr v)) ps).

End HeaderElement.

(** ** AcceptElement *)

Fixpoint skip_spaces (s : string) : string :=
  match s with
  | String " " s' => skip_spaces s'
  | _ => s
  end.

(** [q_separator], the pattern [; *q *=], matched at the head of [s]: the text
    that follows the match. *)
Definition q_separator_match (s : string) : option string :=
  match s with
  | String ";" r =>
      match skip_spaces r with
      | String "q" r' =>
          match skip_spaces r' with
          | String "=" r'' => Some r''
          | _ => None
          end
      | _ => None
      end
  | _ => None
  end.

(** [q_separator.split(s, 1)]: split around the leftmost match. *)
Fixpoint q_separator_split (s : string) : list string :=
  match q_separator_match s with
  | Some r => [EmptyString; r]
  | None =>
      match s with
      | EmptyString => [EmptyString]
      | String c s' =>
          match q_separator_split s' with
          | h :: t => String c h :: t
          | [] => [s]
          end
      end
  end.

Module AcceptElement.

Definition from_str (elementstr : string) : HeaderElement :=
  let atoms := q_separator_split elementstr in
  let media_range := Py.strip (hd EmptyString atoms) in
  let qvalue : option param :=
    match tl atoms with
    | a :: _ =>
        let '(v, ps) := HeaderElement.parse (Py.strip a) in Some (PElem v ps)
    | [] => None
    end in
  let '(media_type, ps) := HeaderElement.parse media_range in
  let params := map (fun '(k, v) => (k, PStr v)) ps in
  mkHeaderElement media_type
    match qvalue with
    | Some q => dict_set "q" q params
    | None => params
    end.

(** The text handed to [float]: [params.get('q', '1')], unwrapped when it
    is a nested element. *)
Definition unwrap (val : param) : string :=
  match val with
  | PElem v _ => v
  | PStr s => s
  end.

Definition q_text (self : HeaderElement) : string :=
  unwrap (default (PStr "1") (dict_get "q" (params self))).

Definition qvalue (self : HeaderElement) : result Float.float :=
  match Float.parse (q_text self) with
  | Some f => Ok f
  | None =>
      Raise (HTTPError 400
               ("Malformed HTTP header: `" +:+ HeaderElement.str self +:+ "`"))
  end.

Definition __lt__ (self other : HeaderElement) : result bool :=
  qs ← qvalue self;
  qo ← qvalue other;
  if Float.eqb qs qo
  then Ok (Py.str_lt (HeaderElement.str self) (HeaderElement.str other))
  else
    qs' ← qvalue self;
    qo' ← qvalue other;
    Ok (Float.ltb qs' qo').

End AcceptElement.

(** ** [sorted]

    [sorted] uses only [<] and is stable.  It is modelled as the insertion
    sort that the interpreter runs on short lists: each element is moved left
    while it is less than its left neighbour.  An exception raised by a
    comparison ends the sort. *)

Section Sorted.
Context {A : Type} (lt : A -> A -> result bool).

(** [racc] is the sorted prefix, greatest first. *)
Fixpoint insert_left (x : A) (racc : list A) : result (list A) :=
  match racc with
  | [] => Ok [x]
  | y :: racc' =>
      b ← lt x y;
      if b : bool then r ← insert_left x racc'; Ok (y :: r)
      else Ok (x :: racc)
  end.

Fixpoint sort_from (racc : list A) (l : list A) : result (list A) :=
  match l with
  | [] => Ok (rev racc)
  | x :: l' => racc' ← insert_left x racc; sort_from racc' l'
  end.

Definition sorted (l : list A) : result (list A) := sort_from [] l.
End Sorted.

(** ** [header_elements] *)

(** [RE_HEADER_SPLIT.split]: split at each comma that is followed, up to the
    end of the text, by an even number of double quotes. *)
Fixpoint RE_HEADER_SPLIT_split (s : string) : list string :=
  match s with
  | EmptyString => [EmptyString]
  | String c s' =>
      if Ascii.eqb c "," && Nat.even (Py.count Py.dquote s')
      then EmptyString :: RE_HEADER_SPLIT_split s'
      else match RE_HEADER_SPLIT_split s' with
           | h :: t => String c h :: t
           | [] => [s]
           end
  end.

Definition is_accept_field (fieldname : text) : bool :=
  Py.text_startswith "Accept" fieldname || Py.text_eqb fieldname "TE".

Definition parse_elements (fieldname : text) (fieldvalue : string)
  : list HeaderElement :=
  map (fun element =>
         if is_accept_field fieldname then AcceptElement.from_str element
         else HeaderElement.from_str element)
      (RE_HEADER_SPLIT_split fieldvalue).

(** The elements of one list all have the class chosen by the field name,
    and [sorted] compares them with that class's [__lt__]. *)
Definition element_lt (fieldname : text)
  : HeaderElement -> HeaderElement -> result bool :=
  if is_accept_field fieldname then AcceptElement.__lt__
  else HeaderElement.__lt__.

Definition header_elements (fieldname : text) (fieldvalue : option string)
  : result (list HeaderElement) :=
  match fieldvalue with
  | None | Some EmptyString => Ok []
  | Some fv =>
      r ← sorted (element_lt fieldname) (parse_elements fieldname fv);
      Ok (rev r)
  end.

(** ** [get_ranges] *)

Definition unpack_error : exn :=
  ValueError "not enough values to unpack (expected 2, got 1)".

Definition nonempty (s : string) : bool :=
  match s with EmptyString => false | _ => true end.

(** What one pass of the loop body does with the list being built. *)
Inductive range_action :=
| Append (r : Z * Z)
| Continue
| ReturnNone.

Definition range_step (content_length : Z) (brange : string)
  : result range_action :=
  match map Py.strip (Py.split1 "-" brange) with
  | [start; stop] =>
      if nonempty start then
        start_n ← Py.int start;
        stop_n ← (if nonempty stop then Py.int stop else Ok (content_length - 1));
        if start_n >=? content_length then Ok Continue
        else if stop_n <? start_n then Ok ReturnNone
        else Ok (Append (start_n, stop_n + 1))
      else
        if nonempty stop then
          n ← Py.int stop;
          if n >? content_length then Ok (Append (0, content_length))
          else Ok (Append (content_length - n, content_length))
        else Ok ReturnNone
  | _ => Raise unpack_error
  end.

Fixpoint ranges_loop (content_length : Z) (branges : list string)
  (result_ : list (Z * Z)) : result (option (list (Z * Z))) :=
  match branges with
  | [] => Ok (Some result_)
  | brange :: rest =>
      a ← range_step content_length brange;
      match a with
      | Append r => ranges_loop content_length rest (result_ ++ [r])
      | Continue => ranges_loop content_length rest result_
      | ReturnNone => Ok None
      end
  end.

Definition get_ranges (headervalue : option string) (content_length : Z)
  : result (option (list (Z * Z))) :=
  match headervalue with
  | None | Some EmptyString => Ok None
  | Some hv =>
      match Py.split1 "=" hv with
      | [bytesunit; byteranges] =>
          ranges_loop content_length (Py.split "," byteranges) []
      | _ => Raise unpack_error
      end
  end.

(** ** [valid_status] *)

Inductive status_arg :=
| StatusNone
| StatusInt (n : Z)
| StatusStr (s : string).

Definition repr_int (n : Z) : string := NilZero.string_of_int (Z.to_int n).

Definition status_is_false (status : status_arg) : bool :=
  match status with
  | StatusNone | StatusInt 0 | StatusStr EmptyString => true
  | _ => false
  end.

Section ValidStatus.
(** [BaseHTTPRequestHandler.responses], the standard library's table from
    status code to reason phrase and description. *)
Variable responses : gmap Z (string * string).

Definition response_codes : gmap Z (string * string) :=
  <[503 := ("Service Unavailable",
            "The server is currently unable to handle the " +:+
            "request due to a temporary overloading or " +:+
            "maintenance of the server.")]>
    (<[500 := ("Internal Server Error",
               "The server encountered an unexpected condition " +:+
               "which prevented it from fulfilling the request.")]>
       responses).

(** [code] and [reason] before the conversion of [code]. *)
Definition status_parts (status : status_arg) : status_arg * option string :=
  let status := if status_is_false status then StatusInt 200 else status in
  match status with
  | StatusStr s =>
      let '(code, reason) := Py.partition " " s in
      let reason := Py.strip reason in
      (StatusStr code, if nonempty reason then Some reason else None)
  | _ => (status, None)
  end.

Definition non_numeric (shown : string) : exn :=
  ValueError ("Illegal response status from server (" +:+ shown +:+
              " is non-numeric).").

Definition status_code (code : status_arg) : result Z :=
  match code with
  | StatusInt n => Ok n
  | StatusStr s =>
      match Py.int s with
      | Ok n => Ok n
      | Raise _ => Raise (non_numeric (Py.repr s))
      end
  | StatusNone => Raise (non_numeric "None")
  end.

Definition valid_status (status : status_arg)
  : result (Z * string * string) :=
  let '(code, reason) := status_parts status in
  code ← status_code code;
  if (code <? 100) || (code >? 599) then
    Raise (ValueError ("Illegal response status from server (" +:+
                       repr_int code +:+ " is out of range)."))
  else
    let '(default_reason, message) :=
      default (EmptyString, EmptyString) (response_codes !! code) in
    Ok (code, default default_reason reason, message).
End ValidStatus.

(** ** [parse_query_string] *)

(** A value of the dictionary [_parse_qs] builds: the text of a field, or the
    list of texts of a repeated field. *)
Inductive qs_value :=
| QStr (s : string)
| QList (l : list string).

(** A value of the dictionary [parse_query_string] returns. *)
Inductive query_value :=
| QInt (n : Z)
| QField (v : qs_value).

Section QueryString.
(** [urllib.parse.unquote_plus] with the given encoding and strict error
    handling; it raises when the decoded bytes are not valid text. *)
Variable unquote_plus : string -> result string.

Definition qs_add (name value : string) (d : gmap string qs_value)
  : gmap string qs_value :=
  match d !! name with
  | Some (QList l) => <[name := QList (l ++ [value])]> d
  | Some (QStr v) => <[name := QList [v; value]]> d
  | None => <[name := QStr value]> d
  end.

Fixpoint parse_qs_loop (keep_blank_values strict_parsing : bool)
  (pairs : list string) (d : gmap string qs_value)
  : result (gmap string qs_value) :=
  match pairs with
  | [] => Ok d
  | name_value :: rest =>
      let next := parse_qs_loop keep_blank_values strict_parsing rest in
      if negb (nonempty name_value) && negb strict_parsing then next d
      else
        let store (n v : string) :=
          if nonempty v || keep_blank_values then
            name ← unquote_plus n;
            value ← unquote_plus v;
            next (qs_add name value d)
          else next d in
        match Py.cut "=" name_value with
        | Some (n, v) => store n v
        | None =>
            if strict_parsing then
              Raise (ValueError ("bad query field: " +:+ Py.repr name_value))
            else if keep_blank_values then store name_value EmptyString
            else next d
        end
  end.

Definition _parse_qs (qs : string) (keep_blank_values strict_parsing : bool)
  : result (gmap string qs_value) :=
  let pairs := concat (map (Py.split ";") (Py.split "&" qs)) in
  parse_qs_loop keep_blank_values strict_parsing pairs ∅.

(** [image_map_pattern.match]: the pattern [[0-9]+,[0-9]+] at the start of
    the text.  [match] does not look at what follows the matched prefix. *)
Definition image_map_pattern_match (s : string) : bool :=
  let '(_, n1, r) := Float.span_digits 0 0 s in
  (0 <? n1) &&
  match r with
  | String "," r' => let '(_, n2, _) := Float.span_digits 0 0 r' in 0 <? n2
  | _ => false
  end.

Definition parse_query_string (query_string : string)
  (keep_blank_values : bool) : result (gmap string query_value) :=
  if image_map_pattern_match query_string then
    let pm := Py.split "," query_string in
    x ← Py.int (nth 0 pm EmptyString);
    y ← Py.int (nth 1 pm EmptyString);
    Ok (<["y" := QInt y]> (<["x" := QInt x]> ∅))
  else
    match _parse_qs query_string keep_blank_values false with
    | Ok d => Ok (QField <$> d)
    | Raise e => Raise e
    end.
End QueryString.

(** ** [KeyTransformingDict], [CaseInsensitiveDict], [HeaderMap] *)

(** The keys are texts: the stored keys are title-cased, and
    [HeaderMap.elements] looks up a key it has title-cased itself. *)

Module CaseInsensitiveDict.
(** [str(key).title()], for a key that is text. *)
Definition transform_key (key : text) : text := Py.title key.
End CaseInsensitiveDict.

Section KeyTransformingDict.
Context {V : Type}.
Variable transform_key : text -> text.

Definition __setitem__ (self : gmap text V) (key : text) (val : V)
  : gmap text V :=
  <[transform_key key := val]> self.

Definition __getitem__ (self : gmap text V) (key : text) : result V :=
  match self !! transform_key key with
  | Some v => Ok v
  | None => Raise (KeyError (transform_key key))
  end.

Definition __contains__ (self : gmap text V) (key : text) : bool :=
  bool_decide (is_Some (self !! transform_key key)).

Definition __delitem__ (self : gmap text V) (key : text)
  : result (gmap text V) :=
  match self !! transform_key key with
  | Some _ => Ok (delete (transform_key key) self)
  | None => Raise (KeyError (transform_key key))
  end.

Definition get (self : gmap text V) (key : text) : option V :=
  self !! transform_key key.
End KeyTransformingDict.

Module HeaderMap.
Definition setitem {V} (self : gmap text V) (key : text) (val : V)
  : gmap text V :=
  __setitem__ CaseInsensitiveDict.transform_key self key val.
Definition getitem {V} (self : gmap text V) (key : text) : result V :=
  __getitem__ CaseInsensitiveDict.transform_key self key.
Definition elements (self : gmap text string) (key : text)
  : result (list HeaderElement) :=
  let key := Py.title key in
  header_elements key (get CaseInsensitiveDict.transform_key self key).
End HeaderMap.

(** ** Vocabulary of the statements *)

(** A non-empty text of ASCII digits, and the number it writes. *)
Definition is_digits (s : string) : bool := nonempty s && Py.forallb Py.isdigit s.

Fixpoint decimal_from (acc : Z) (s : string) : Z :=
  match s with
  | EmptyString => acc
  | String c s' => decimal_from (10 * acc + Py.digit_val c) s'
  end.

Definition decimal (s : string) : Z := decimal_from 0 s.

(** What a returned pair satisfies: a pair built from a first-byte position
    starts inside the entity and is not empty; a pair built from a suffix
    length ends at the end of the entity. *)
Definition range_ok (content_length : Z) (r : Z * Z) : Prop :=
  0 <= r.1 /\ ((r.1 < r.2 /\ r.1 < content_length) \/ r.2 = content_length).

(** What the data model asks of a byte range. *)
Definition within_entity (content_length : Z) (r : Z * Z) : Prop :=
  0 <= r.1 /\ r.1 < r.2 /\ r.2 <= content_length.

(** The code part of the argument of [valid_status]: the given integer, or the
    text before the first space; an argument that is false ([None], 0, the
    empty text) stands for 200.  [numeric_code] is the integer it converts
    to, if any. *)
Definition code_part (status : status_arg) : status_arg := (status_parts status).1.

Definition numeric_code (status : status_arg) : option Z :=
  match code_part status with
  | StatusInt n => Some n
  | StatusStr s => match Py.int s with Ok n => Some n | Raise _ => None end
  | StatusNone => None
  end.

(** The code part of the argument as it is given: the integer, or the text
    before the first space; and the integer it converts to, if any. *)
Definition given_code_part (status : status_arg) : status_arg :=
  match status with
  | StatusStr s => StatusStr (Py.partition " " s).1
  | _ => status
  end.

Definition given_code (status : status_arg) : option Z :=
  match given_code_part status with
  | StatusInt n => Some n
  | StatusStr s => match Py.int s with Ok n => Some n | Raise _ => None end
  | StatusNone => None
  end.

(** The number of double quotes in a segment; one of them is unmatched when
    the number is odd. *)
Definition quotes (s : string) : nat := Py.count Py.dquote s.
Definition balanced (s : string) : Prop := Nat.even (quotes s) = true.

(** A float that is not a NaN, and its place in the order of floats: the
    class (negative infinity, negative, zero, positive, positive infinity),
    then the exponent and the mantissa, both negated for a negative float. *)
Definition is_number (x : spec_float) : Prop := Float.is_nan x = false.

Definition float_key (x : spec_float) : Z * Z * Z :=
  match x with
  | S754_zero _ => (0, 0, 0)
  | S754_infinity s => (if s then -2 else 2, 0, 0)
  | S754_nan => (0, 0, 0)
  | S754_finite s m e => if s then (-1, - e, Z.neg m) else (1, e, Z.pos m)
  end.

Definition key_lt (a b : Z * Z * Z) : Prop :=
  a.1.1 < b.1.1
  \/ (a.1.1 = b.1.1 /\ (a.1.2 < b.1.2 \/ (a.1.2 = b.1.2 /\ a.2 < b.2))).

Definition key_eq (a b : Z * Z * Z) : Prop :=
  a.1.1 = b.1.1 /\ a.1.2 = b.1.2 /\ a.2 = b.2.

(** An element whose quality is a number. *)
Definition has_quality (e : HeaderElement) : Prop :=
  exists q, AcceptElement.qvalue e = Ok q /\ is_number q.

Definition has_qualityb (e : HeaderElement) : bool :=
  match AcceptElement.qvalue e with
  | Ok q => negb (Float.is_nan q)
  | Raise _ => false
  end.

(** [x] is at least as preferred as [y]: its quality is greater, or the
    qualities are equal and its rendering is not below that of [y]. *)
Definition preferred (x y : HeaderElement) : Prop :=
  exists qx qy,
    AcceptElement.qvalue x = Ok qx /\ AcceptElement.qvalue y = Ok qy /\
    (Float.ltb qy qx = true
     \/ (Float.eqb qx qy = true
         /\ String.le (HeaderElement.str y) (HeaderElement.str x))).

(** What [AcceptElement.__lt__] returns when neither quality raises. *)
Definition accept_ltb (x y : HeaderElement) : bool :=
  match AcceptElement.qvalue x, AcceptElement.qvalue y with
  | Ok qx, Ok qy =>
      if Float.eqb qx qy
      then Py.str_lt (HeaderElement.str x) (HeaderElement.str y)
      else Float.ltb qx qy
  | _, _ => false
  end.

(** * The rest of the module *)

(** ** The other methods of [KeyTransformingDict] *)

Section KeyTransformingDictMethods.
Context {V : Type}.
Variable transform_key : text -> text.

(** [__init__]: the arguments first build an ordinary dictionary, whose items
    are then stored one by one under their transformed keys. *)
Definition __init__ (items : list (string * V)) : gmap text V :=
  fold_left (fun self '(k, v) => __setitem__ transform_key self (k : string) v)
            (fold_left (fun d '(k, v) => dict_set k v d) items [])
            ∅.

(** [pop(key)] and [pop(key, default)]: the value and the dictionary left. *)
Definition pop (self : gmap text V) (key : text) (default : option V)
  : result (V * gmap text V) :=
  let key := transform_key key in
  match self !! key, default with
  | Some v, _ => Ok (v, delete key self)
  | None, Some d => Ok (d, self)
  | None, None => Raise (KeyError key)
  end.

(** [setdefault(key, default)]: the value and the dictionary left. *)
Definition setdefault (self : gmap text V) (key : text) (default : V)
  : V * gmap text V :=
  let key := transform_key key in
  match self !! key with
  | Some v => (v, self)
  | None => (default, <[key := default]> self)
  end.

(** [matching_key_for]: the stored key equal to [key]; the key is compared
    as it is given. *)
Definition matching_key_for (self : gmap text V) (key : text)
  : result text :=
  if bool_decide (is_Some (self !! key)) then Ok key else Raise (KeyError key).
End KeyTransformingDictMethods.

(** [HeaderMap.values]. *)
Definition HeaderMap_values (self : gmap text string) (key : text)
  : result (list string) :=
  match HeaderMap.elements self key with
  | Ok es => Ok (map value es)
  | Raise e => Raise e
  end.

(** The stored keys of a header map are all title-cased texts of code
    points below 256. *)
Definition title_cased (k : text) : Prop :=
  exists s : string, k = CaseInsensitiveDict.transform_key s.

Definition canonical {V} (m : gmap text V) : Prop :=
  forall k, is_Some (m !! k) -> title_cased k.

(** An element whose [q] text does not convert to a number, and the error
    that reading its quality raises. *)
Definition malformed (e : HeaderElement) : Prop :=
  Float.parse (AcceptElement.q_text e) = None.

Definition malformed_error (e : HeaderElement) : exn :=
  HTTPError 400 ("Malformed HTTP header: `" +:+ HeaderElement.str e +:+ "`").

(** ** Reading the query-string loop field by field *)

Section QueryFields.
Variable decode : string -> string.

(** What one field adds: its decoded name and value, or nothing. *)
Definition field_of (keep_blank_values : bool) (name_value : string)
  : list (string * string) :=
  match Py.cut "=" name_value with
  | Some (n, v) =>
      if nonempty v || keep_blank_values then [(decode n, decode v)] else []
  | None =>
      if nonempty name_value && keep_blank_values
      then [(decode name_value, decode EmptyString)] else []
  end.

(** The values given to [name], in order. *)
Definition values_of (name : string) (fields : list (string * string))
  : list string :=
  map snd (List.filter (fun f => String.eqb f.1 name) fields).

(** How the dictionary holds a list of values: nothing, the one value, or
    the list of two values or more. *)
Definition pack (vs : list string) : option qs_value :=
  match vs with
  | [] => None
  | [v] => Some (QStr v)
  | _ => Some (QList vs)
  end.
End QueryFields.

(** The fields of a query string: split at [&], then at [;]. *)
Definition query_pairs (qs : string) : list string :=
  concat (map (Py.split ";") (Py.split "&" qs)).

(** The pieces of one field that the lenient loop hands to the decoder: the
    name and the value of a field that is kept. *)
Definition pieces_of (keep_blank_values : bool) (name_value : string)
  : list string :=
  match Py.cut "=" name_value with
  | Some (n, v) => if nonempty v || keep_blank_values then [n; v] else []
  | None =>
      if nonempty name_value && keep_blank_values
      then [name_value; EmptyString] else []
  end.

Definition query_pieces (keep_blank_values : bool) (qs : string)
  : list string :=
  concat (map (pieces_of keep_blank_values) (query_pairs qs)).

(** The text the decoder gives for a piece it accepts. *)
Definition decoded (unquote_plus : string -> result string) (piece : string)
  : string :=
  match unquote_plus piece with
  | Ok s => s
  | Raise _ => EmptyString
  end.

(** ** [urljoin] and [urljoin_bytes] *)

(** [ab in s] for a two-character pattern. *)
Fixpoint contains2 (a b : ascii) (s : string) : bool :=
  match s with
  | String d ((String e _) as s') =>
      (Ascii.eqb d a && Ascii.eqb e b) || contains2 a b s'
  | _ => false
  end.

(** [while '//' in url: url = url.replace('//', '/')].  Every pass shortens
    the text, so [String.length url] passes are enough. *)
Fixpoint collapse_loop (fuel : nat) (url : string) : string :=
  match fuel with
  | O => url
  | S fuel' =>
      if contains2 "/" "/" url
      then collapse_loop fuel' (Py.replace2 "/" "/" "/" url)
      else url
  end.

Definition urljoin (atoms : list string) : string :=
  let url := Py.join "/" (List.filter nonempty atoms) in
  let url := collapse_loop (String.length url) url in
  if nonempty url then url else "/".

(** The same code on byte strings. *)
Definition urljoin_bytes (atoms : list string) : string := urljoin atoms.

(** The text with every run of slashes reduced to one slash. *)
Fixpoint squeeze (s : string) : string :=
  match s with
  | String c ((String d _) as s') =>
      if Ascii.eqb c "/" && Ascii.eqb d "/" then squeeze s'
      else String c (squeeze s')
  | _ => s
  end.

Definition head_is_slash (s : string) : bool :=
  match s with String c _ => Ascii.eqb c "/" | EmptyString => false end.

(** The pairs a loop action adds to the list of ranges. *)
Definition pairs_of (a : range_action) : list (Z * Z) :=
  match a with
  | Append r => [r]
  | Continue | ReturnNone => []
  end.

(** ** [HeaderMap.encode] and the encoding of header items

    Here a [str] may hold any code point, so it is a list of code points; a
    [bytes] value is a list of numbers below 256.  A codec gives the bytes of
    a text, or nothing where Python raises [UnicodeEncodeError]. *)

Definition codec : Type := list Z -> option (list Z).

(** The ISO-8859-1 codec: one byte for each code point below 256. *)
Definition latin_1 : codec := fun v =>
  if List.forallb (fun c => (0 <=? c) && (c <? 256)) v then Some v else None.

(** [binascii.b2a_base64]: four characters for every three bytes, padded with
    equals signs, and a newline at the end. *)
Definition base64_alphabet : string :=
  "ABCDEFGHIJKLMNOPQRSTUVWXYZabcdefghijklmnopqrstuvwxyz0123456789+/".

Definition base64_char (n : Z) : Z :=
  match String.get (Z.to_nat n) base64_alphabet with
  | Some c => Py.ord c
  | None => 61
  end.

Fixpoint base64_groups (data : list Z) : list Z :=
  match data with
  | [] => []
  | [a] => [base64_char (a / 4); base64_char (a mod 4 * 16); 61; 61]
  | [a; b] =>
      [base64_char (a / 4); base64_char (a mod 4 * 16 + b / 16);
       base64_char (b mod 16 * 4); 61]
  | a :: b :: c :: rest =>
      base64_char (a / 4) :: base64_char (a mod 4 * 16 + b / 16)
      :: base64_char (b mod 16 * 4 + c / 64) :: base64_char (c mod 64)
      :: base64_groups rest
  end.

Definition b2a_base64 (data : list Z) : list Z := base64_groups data ++ [10].

(** [bytes.strip(chars)] for one character. *)
Fixpoint lstrip_byte (x : Z) (b : list Z) : list Z :=
  match b with
  | y :: b' => if y =? x then lstrip_byte x b' else b
  | [] => []
  end.

Definition strip_byte (x : Z) (b : list Z) : list Z :=
  rev (lstrip_byte x (rev (lstrip_byte x b))).

Definition bytes_of (s : string) : list Z :=
  map Py.ord (list_ascii_of_string s).

(** [header_translate_deletechars]: the bytes 0 to 31, and 127. *)
Definition header_translate_deletechars : list Z :=
  map Z.of_nat (seq 0 32) ++ [127].

(** [item.translate(None, deletechars)]. *)
Definition translate_delete (deletechars : list Z) (item : list Z) : list Z :=
  List.filter (fun x => negb (existsb (Z.eqb x) deletechars)) item.

(** A header name or value: text or bytes. *)
Inductive header_part :=
| Text (v : list Z)
| Bytes (b : list Z).

Section Encode.
(** The class attributes [encodings], [protocol] and [use_rfc_2047]; the
    UTF-8 codec of the interpreter, which raises on what it cannot encode;
    and the renderings that [%r] gives in the message of the last error. *)
Variable encodings : list codec.
Variable protocol : Z * Z.
Variable use_rfc_2047 : bool.
Variable utf_8 : list Z -> result (list Z).
Variable repr_text : list Z -> string.
Variable repr_encodings : string.

Fixpoint first_encoding (encs : list codec) (v : list Z) : option (list Z) :=
  match encs with
  | [] => None
  | enc :: encs' =>
      match enc v with
      | Some b => Some b
      | None => first_encoding encs' v
      end
  end.

Definition encode (v : list Z) : result (list Z) :=
  match first_encoding encodings v with
  | Some b => Ok b
  | None =>
      if (protocol.1 =? 1) && (protocol.2 =? 1) && use_rfc_2047 then
        u ← utf_8 v;
        Ok (bytes_of "=?utf-8?b?" ++ strip_byte 10 (b2a_base64 u)
            ++ bytes_of "?=")
      else
        Raise (ValueError ("Could not encode header part " +:+ repr_text v +:+
                           " using any of the encodings " +:+ repr_encodings
                           +:+ "."))
  end.

Definition encode_header_item (item : header_part) : result (list Z) :=
  item ← match item with
         | Text v => encode v
         | Bytes b => Ok b
         end;
  Ok (translate_delete header_translate_deletechars item).

(** [encode_header_items] on names and values that are text or bytes
    already; the pairs come out in the order of the items, up to the first
    one that raises. *)
Fixpoint encode_header_items (header_items : list (header_part * header_part))
  : result (list (list Z * list Z)) :=
  match header_items with
  | [] => Ok []
  | (k, v) :: rest =>
      k' ← encode_header_item k;
      v' ← encode_header_item v;
      rest' ← encode_header_items rest;
      Ok ((k', v') :: rest')
  end.
End Encode.

(** A byte that may be sent in a header: not a control character. *)
Definition sendable (x : Z) : Prop := ~ (0 <= x < 32) /\ x <> 127.

Definition is_byte (x : Z) : Prop := 0 <= x < 256.

(** A printable ASCII character. *)
Definition printable_ascii (x : Z) : Prop := 32 < x < 127.

(** The UTF-8 codec on code points below 0x110000: one to four bytes for a
    code point; a surrogate cannot be encoded, and the [UnicodeEncodeError]
    (a [ValueError]) is raised with the reason the codec gives. *)
Definition utf_8_char (c : Z) : option (list Z) :=
  if c <? 128 then Some [c]
  else if c <? 2048 then Some [192 + c / 64; 128 + c mod 64]
  else if c <? 65536 then
    if (55296 <=? c) && (c <=? 57343) then None
    else Some [224 + c / 4096; 128 + c / 64 mod 64; 128 + c mod 64]
  else Some [240 + c / 262144; 128 + c / 4096 mod 64; 128 + c / 64 mod 64;
             128 + c mod 64].

Fixpoint utf_8_encode (v : list Z) : result (list Z) :=
  match v with
  | [] => Ok []
  | c :: v' =>
      match utf_8_char c with
      | Some b => rest ← utf_8_encode v'; Ok (b ++ rest)
      | None => Raise (ValueError "surrogates not allowed")
      end
  end.

(** ** Tokens that render and parse back *)

(** A character of a plain value: not white space, not a semicolon, not a
    double quote.  A character of a plain parameter name is moreover not an
    equals sign and is left as it is by [str.lower]: it is not an upper-case
    letter, A-Z or U+00C0..U+00DE. *)
Definition value_char (c : ascii) : bool :=
  negb (Py.isspace c) && negb (Ascii.eqb c ";") && negb (Ascii.eqb c Py.dquote).

Definition name_char (c : ascii) : bool :=
  value_char c && negb (Ascii.eqb c "=") && Ascii.eqb (Py.to_lower c) c.

Definition plain_param (kv : string * string) : bool :=
  Py.forallb name_char kv.1 && Py.forallb value_char kv.2.

Definition text_params (ps : list (string * string)) : list (string * param) :=
  map (fun '(k, v) => (k, PStr v)) ps.

(** * Facts about the built-ins *)

Section StringFacts.

Lemma append_assoc a b c : (a +:+ b) +:+ c = a +:+ (b +:+ c).
Proof.
  induction a as [|d a IH]; [done |].
  change (String d ((a +:+ b) +:+ c) = String d (a +:+ (b +:+ c))).
  by rewrite IH.
Qed.

Lemma count_app c a b :
  Py.count c (a +:+ b) = (Py.count c a + Py.count c b)%nat.
Proof. induction a as [|d a IH]; simpl; [done | rewrite IH; lia]. Qed.

Lemma forallb_count p c s :
  Py.forallb p s = true -> p c = false -> Py.count c s = 0%nat.
Proof.
  intros Hs Hc. induction s as [|d s IH]; simpl in *; [done |].
  apply andb_prop in Hs as [Hd Hs]. rewrite (IH Hs).
  destruct (Ascii.eqb_spec d c) as [-> | _]; [congruence | done].
Qed.

Lemma cut_app sep u r :
  Py.count sep u = 0%nat -> Py.cut sep (u +:+ String sep r) = Some (u, r).
Proof.
  induction u as [|c u IH]; simpl; intros H.
  - by rewrite Ascii.eqb_refl.
  - destruct (Ascii.eqb c sep); [discriminate | by rewrite IH].
Qed.

Lemma cut_Some sep s a b :
  Py.cut sep s = Some (a, b) ->
  Py.count sep a = 0%nat /\ s = a +:+ String sep b.
Proof.
  revert a b. induction s as [|c s IH]; simpl; intros a b H; [done |].
  destruct (Ascii.eqb_spec c sep) as [-> | Hne].
  - by injection H as <- <-.
  - destruct (Py.cut sep s) as [[a' b']|]; [| done].
    injection H as <- <-. destruct (IH _ _ eq_refl) as [H1 ->].
    simpl. split; [| done].
    destruct (Ascii.eqb_spec c sep); [done | exact H1].
Qed.

Lemma split_none sep s : Py.count sep s = 0%nat -> Py.split sep s = [s].
Proof.
  induction s as [|c s IH]; simpl; [done |]; intros H.
  destruct (Ascii.eqb c sep); [discriminate | by rewrite IH].
Qed.

Lemma split_app sep a r :
  Py.count sep a = 0%nat ->
  Py.split sep (a +:+ String sep r) = a :: Py.split sep r.
Proof.
  induction a as [|c a IH]; simpl; intros H.
  - by rewrite Ascii.eqb_refl.
  - destruct (Ascii.eqb c sep); [discriminate | by rewrite IH].
Qed.

Lemma count_lstrip c s : (Py.count c (Py.lstrip s) <= Py.count c s)%nat.
Proof.
  induction s as [|d s IH]; simpl; [done |].
  destruct (Py.isspace d); simpl; lia.
Qed.

Lemma count_rstrip c s : (Py.count c (Py.rstrip s) <= Py.count c s)%nat.
Proof.
  induction s as [|d s IH]; simpl; [done |].
  destruct (Py.rstrip s) as [|e r] eqn:E.
  - destruct (Py.isspace d); simpl; lia.
  - simpl in *. lia.
Qed.

Lemma count_strip c s : Py.count c s = 0%nat -> Py.count c (Py.strip s) = 0%nat.
Proof.
  intros H. unfold Py.strip.
  pose proof (count_rstrip c (Py.lstrip s)). pose proof (count_lstrip c s). lia.
Qed.

Lemma lstrip_head s :
  match Py.lstrip s with
  | EmptyString => True
  | String c _ => Py.isspace c = false
  end.
Proof.
  induction s as [|d s IH]; simpl; [done |].
  destruct (Py.isspace d) eqn:E; [exact IH | exact E].
Qed.

Lemma rstrip_rstrip s : Py.rstrip (Py.rstrip s) = Py.rstrip s.
Proof.
  induction s as [|d s IH]; simpl; [done |].
  destruct (Py.rstrip s) as [|e r] eqn:E.
  - destruct (Py.isspace d) eqn:Ed; simpl; [done | by rewrite Ed].
  - change (Py.rstrip (String d (String e r))) with
      (match Py.rstrip (String e r) with
       | EmptyString => if Py.isspace d then EmptyString else String d EmptyString
       | r' => String d r'
       end).
    by rewrite IH.
Qed.

Lemma lstrip_rstrip s :
  match s with EmptyString => True | String c _ => Py.isspace c = false end ->
  Py.lstrip (Py.rstrip s) = Py.rstrip s.
Proof.
  destruct s as [|c s]; simpl; [done |]. intros Hc.
  destruct (Py.rstrip s); rewrite ?Hc; simpl; by rewrite Hc.
Qed.

Lemma strip_strip s : Py.strip (Py.strip s) = Py.strip s.
Proof.
  unfold Py.strip. rewrite (lstrip_rstrip _ (lstrip_head s)).
  apply rstrip_rstrip.
Qed.

Lemma strip_id s :
  Py.forallb (fun c => negb (Py.isspace c)) s = true -> Py.strip s = s.
Proof.
  intros H. unfold Py.strip.
  assert (Py.lstrip s = s) as ->.
  { destruct s as [|c s]; simpl in *; [done |].
    apply andb_prop in H as [Hc _]. by destruct (Py.isspace c). }
  induction s as [|c s IH]; simpl in *; [done |].
  apply andb_prop in H as [Hc Hs]. rewrite (IH Hs).
  destruct s; [by destruct (Py.isspace c) | done].
Qed.

(** The white space around a number is part of the white space that
    [strip] removes. *)
Lemma number_space_isspace c : Py.number_space c = true -> Py.isspace c = true.
Proof. unfold Py.number_space, Py.isspace, Py.between. lia. Qed.

Lemma count_lskip space c s :
  (Py.count c (Py.lskip space s) <= Py.count c s)%nat.
Proof.
  induction s as [|d s IH]; simpl; [done |].
  destruct (space d); simpl; lia.
Qed.

Lemma count_rskip space c s :
  (Py.count c (Py.rskip space s) <= Py.count c s)%nat.
Proof.
  induction s as [|d s IH]; simpl; [done |].
  destruct (Py.rskip space s) as [|e r] eqn:E.
  - destruct (space d); simpl; lia.
  - simpl in *. lia.
Qed.

Lemma count_number_text c s :
  Py.count c s = 0%nat -> Py.count c (Py.number_text s) = 0%nat.
Proof.
  intros H. unfold Py.number_text.
  pose proof (count_rskip Py.number_space c (Py.lskip Py.number_space s)).
  pose proof (count_lskip Py.number_space c s). lia.
Qed.

Lemma number_text_id s :
  Py.forallb (fun c => negb (Py.number_space c)) s = true ->
  Py.number_text s = s.
Proof.
  intros H. unfold Py.number_text.
  assert (Py.lskip Py.number_space s = s) as ->.
  { destruct s as [|c s]; simpl in *; [done |].
    apply andb_prop in H as [Hc _]. by destruct (Py.number_space c). }
  induction s as [|c s IH]; simpl in *; [done |].
  apply andb_prop in H as [Hc Hs]. rewrite (IH Hs).
  destruct s; [by destruct (Py.number_space c) | done].
Qed.

Lemma rskip_rstrip s :
  Py.rskip Py.number_space (Py.rstrip s) = Py.rstrip s.
Proof.
  induction s as [|d s IH]; simpl; [done |].
  destruct (Py.rstrip s) as [|e r] eqn:E.
  - destruct (Py.isspace d) eqn:Ed; simpl; [done |].
    destruct (Py.number_space d) eqn:En; [| done].
    apply number_space_isspace in En. congruence.
  - change (Py.rskip Py.number_space (String d (String e r))) with
      (match Py.rskip Py.number_space (String e r) with
       | EmptyString =>
           if Py.number_space d then EmptyString else String d EmptyString
       | r' => String d r'
       end).
    by rewrite IH.
Qed.

(** What [strip] returns has no white space left for [int] to skip. *)
Lemma number_text_strip s : Py.number_text (Py.strip s) = Py.strip s.
Proof.
  unfold Py.number_text, Py.strip.
  assert (Py.lskip Py.number_space (Py.rstrip (Py.lstrip s))
          = Py.rstrip (Py.lstrip s)) as ->; [| apply rskip_rstrip].
  pose proof (lstrip_head s) as Hh.
  destruct (Py.lstrip s) as [|c t]; simpl; [done |].
  assert (Hc : Py.number_space c = false).
  { destruct (Py.number_space c) eqn:En; [| done].
    apply number_space_isspace in En. congruence. }
  destruct (Py.rstrip t); rewrite ?Hh; simpl; by rewrite Hc.
Qed.

Lemma forallb_impl (p q : ascii -> bool) s :
  (forall c, p c = true -> q c = true) ->
  Py.forallb p s = true -> Py.forallb q s = true.
Proof.
  intros Hpq. induction s as [|c s IH]; simpl; [done |].
  intros [Hc Hs]%andb_prop. by rewrite (Hpq _ Hc), IH.
Qed.

Lemma isdigit_range c : Py.isdigit c = true -> 48 <= Py.ord c <= 57.
Proof. unfold Py.isdigit, Py.between. lia. Qed.

Lemma isdigit_not_space c : Py.isdigit c = true -> negb (Py.isspace c) = true.
Proof.
  intros H%isdigit_range. unfold Py.isspace, Py.between. lia.
Qed.

Lemma isdigit_not_number_space c :
  Py.isdigit c = true -> negb (Py.number_space c) = true.
Proof.
  intros H%isdigit_range. unfold Py.number_space, Py.between. lia.
Qed.

End StringFacts.

(** * Facts about [cgi.parse_header] *)

Section CgiFacts.

Lemma length_drop n s : (String.length (Py.drop n s) <= String.length s)%nat.
Proof.
  revert s. induction n as [|n IH]; intros [|c s]; simpl; try lia.
  specialize (IH s). lia.
Qed.

(** The number of steps [_parseparam] is given is enough: more steps give
    the same list. *)
Lemma parseparam_steps_enough n : forall m s,
  (String.length s <= n)%nat -> (String.length s <= m)%nat ->
  Cgi.parseparam_steps n s = Cgi.parseparam_steps m s.
Proof.
  induction n as [|n IH]; intros m s Hn Hm.
  - destruct s; [by destruct m | simpl in Hn; lia].
  - destruct s as [|c s1]; [by destruct m |].
    destruct m as [|m]; [simpl in Hm; lia |].
    simpl in *. destruct (Ascii.eqb c ";"); [| done].
    f_equal. apply IH.
    all: pose proof (length_drop
                       (default (String.length s1) (Cgi.find_end s1 0 s1)) s1);
      lia.
Qed.

End CgiFacts.

(** * Facts about [int] *)

Section IntFacts.

Lemma digits_from_digits s acc :
  Py.forallb Py.isdigit s = true ->
  Py.digits_from false acc s = Some (decimal_from acc s).
Proof.
  revert acc. induction s as [|c s IH]; simpl; intros acc H; [done |].
  apply andb_prop in H as [Hc Hs]. rewrite Hc. by apply IH.
Qed.

Lemma digits_from_nonneg s : forall prev acc n,
  Py.digits_from prev acc s = Some n -> 0 <= acc -> 0 <= n.
Proof.
  induction s as [|c s IH]; simpl; intros prev acc n H Hacc.
  - destruct prev; [done | by injection H as <-].
  - destruct (Py.isdigit c) eqn:Hc.
    + apply IH in H; [done |].
      apply isdigit_range in Hc. unfold Py.digit_val. lia.
    + destruct (Ascii.eqb c "_"); [| done].
      destruct prev; [done | by apply IH in H].
Qed.

Lemma digitpart_nonneg s n : Py.digitpart s = Some n -> 0 <= n.
Proof.
  destruct s as [|c s]; unfold Py.digitpart; [done |].
  destruct (Py.isdigit c); [| done].
  intros H. by apply digits_from_nonneg in H.
Qed.

Lemma int_digits a : is_digits a = true -> Py.int a = Ok (decimal a).
Proof.
  intros [Hne Hd]%andb_prop. unfold Py.int.
  rewrite number_text_id
    by (eapply forallb_impl; [apply isdigit_not_number_space | done]).
  destruct a as [|c a]; [done |]. unfold Py.signed_digits.
  pose proof Hd as Hd'. simpl in Hd'. apply andb_prop in Hd' as [Hc _].
  destruct (Ascii.eqb_spec c "-") as [-> | _]; [done |].
  destruct (Ascii.eqb_spec c "+") as [-> | _]; [done |].
  unfold Py.digitpart. rewrite Hc. by rewrite digits_from_digits.
Qed.

Lemma int_Ok s n :
  Py.int s = Ok n <-> Py.signed_digits (Py.number_text s) = Some n.
Proof.
  unfold Py.int.
  destruct (Py.signed_digits (Py.number_text s)); split; congruence.
Qed.

(** On a stripped text [int] has no white space to skip. *)
Lemma int_stripped s n :
  Py.int (Py.strip s) = Ok n <-> Py.signed_digits (Py.strip s) = Some n.
Proof. by rewrite int_Ok, number_text_strip. Qed.

Lemma int_nonempty s n : Py.int s = Ok n -> nonempty s = true.
Proof. by destruct s. Qed.

Lemma int_nonneg s n : Py.count "-" s = 0%nat -> Py.int s = Ok n -> 0 <= n.
Proof.
  intros Hc%count_number_text. rewrite int_Ok.
  destruct (Py.number_text s) as [|c s']; unfold Py.signed_digits; [done |].
  simpl in Hc. destruct (Ascii.eqb c "-"); [done |].
  destruct (Ascii.eqb c "+"); apply digitpart_nonneg.
Qed.

End IntFacts.

(** * [get_ranges] *)

Section GetRanges.

Lemma get_ranges_cut hv u byteranges content_length :
  Py.cut "=" hv = Some (u, byteranges) ->
  get_ranges (Some hv) content_length =
    ranges_loop content_length (Py.split "," byteranges) [].
Proof.
  intros H. destruct hv; [done |]. unfold get_ranges, Py.split1. by rewrite H.
Qed.

Lemma range_step_cut content_length brange a b :
  Py.cut "-" brange = Some (a, b) ->
  range_step content_length brange =
    let start := Py.strip a in
    let stop := Py.strip b in
    if nonempty start then
      start_n ← Py.int start;
      stop_n ← (if nonempty stop then Py.int stop else Ok (content_length - 1));
      if start_n >=? content_length then Ok Continue
      else if stop_n <? start_n then Ok ReturnNone
      else Ok (Append (start_n, stop_n + 1))
    else
      if nonempty stop then
        n ← Py.int stop;
        if n >? content_length then Ok (Append (0, content_length))
        else Ok (Append (content_length - n, content_length))
      else Ok ReturnNone.
Proof. intros H. unfold range_step, Py.split1. by rewrite H. Qed.

Lemma digits_strip a : is_digits a = true -> Py.strip a = a.
Proof.
  intros [_ Hd]%andb_prop.
  apply strip_id. eapply forallb_impl; [apply isdigit_not_space | done].
Qed.

Lemma digits_count sep a :
  is_digits a = true -> Py.isdigit sep = false -> Py.count sep a = 0%nat.
Proof. intros [_ Hd]%andb_prop Hs. by eapply forallb_count. Qed.

Lemma digits_nonempty a : is_digits a = true -> nonempty a = true.
Proof. by intros [? _]%andb_prop. Qed.

(** A spec with both positions. *)
Lemma range_step_both content_length a b :
  is_digits a = true -> is_digits b = true ->
  range_step content_length (a +:+ "-" +:+ b) =
    if decimal a >=? content_length then Ok Continue
    else if decimal b <? decimal a then Ok ReturnNone
    else Ok (Append (decimal a, decimal b + 1)).
Proof.
  intros Ha Hb.
  rewrite (range_step_cut _ _ a b) by (apply cut_app; by apply digits_count).
  cbv zeta. rewrite !digits_strip, !digits_nonempty, !int_digits by done.
  done.
Qed.

(** A spec with a first position only. *)
Lemma range_step_open content_length a :
  is_digits a = true ->
  range_step content_length (a +:+ "-") =
    if decimal a >=? content_length then Ok Continue
    else if content_length - 1 <? decimal a then Ok ReturnNone
    else Ok (Append (decimal a, content_length - 1 + 1)).
Proof.
  intros Ha.
  rewrite (range_step_cut _ _ a EmptyString)
    by (apply cut_app; by apply digits_count).
  cbv zeta.
  rewrite (digits_strip a), (digits_nonempty a), (int_digits a) by done.
  done.
Qed.

(** A spec with a suffix length only. *)
Lemma range_step_suffix content_length b :
  is_digits b = true ->
  range_step content_length ("-" +:+ b) =
    if decimal b >? content_length then Ok (Append (0, content_length))
    else Ok (Append (content_length - decimal b, content_length)).
Proof.
  intros Hb. rewrite (range_step_cut _ _ EmptyString b) by reflexivity.
  cbv zeta.
  rewrite (digits_strip b), (digits_nonempty b), (int_digits b) by done.
  done.
Qed.

Lemma spec_no_comma a b :
  is_digits a = true -> is_digits b = true ->
  Py.count "," (a +:+ "-" +:+ b) = 0%nat.
Proof.
  intros Ha Hb.
  by rewrite !count_app, (digits_count _ a), (digits_count _ b).
Qed.

Lemma header_cut u rest :
  Py.count "=" u = 0%nat -> Py.cut "=" (u +:+ "=" +:+ rest) = Some (u, rest).
Proof. apply cut_app. Qed.

Lemma range_step_ok content_length brange r :
  0 <= content_length ->
  range_step content_length brange = Ok (Append r) ->
  range_ok content_length r.
Proof.
  intros Hcl. destruct (Py.cut "-" brange) as [[a b]|] eqn:Hcut.
  2: { unfold range_step, Py.split1. by rewrite Hcut. }
  rewrite (range_step_cut _ _ a b Hcut). cbv zeta.
  apply cut_Some in Hcut as [Ha _]. apply count_strip in Ha.
  unfold range_ok.
  destruct (nonempty (Py.strip a)).
  - destruct (Py.int (Py.strip a)) as [start_n|] eqn:Hs; [| done].
    apply int_nonneg in Hs; [| done]. simpl.
    destruct (if nonempty (Py.strip b) then _ else _) as [stop_n|]; [| done].
    simpl. destruct (Z.geb_spec start_n content_length); [done |].
    destruct (Z.ltb_spec stop_n start_n); [done |].
    intros [= <-]. simpl. lia.
  - destruct (nonempty (Py.strip b)); [| done].
    destruct (Py.int (Py.strip b)) as [n|]; [| done]. simpl.
    destruct (Z.gtb_spec n content_length); intros [= <-]; simpl; lia.
Qed.

Lemma ranges_loop_ok content_length branges : forall acc l,
  0 <= content_length ->
  Forall (range_ok content_length) acc ->
  ranges_loop content_length branges acc = Ok (Some l) ->
  Forall (range_ok content_length) l.
Proof.
  induction branges as [|brange rest IH]; simpl; intros acc l Hcl Hacc H.
  - by injection H as <-.
  - destruct (range_step content_length brange) as [[r| |]|] eqn:Hstep;
      simpl in H; try done.
    + apply (IH _ _ Hcl) in H; [done |].
      apply Forall_app. split; [done |].
      apply Forall_cons; split; [| done]. by eapply range_step_ok.
    + by apply (IH _ _ Hcl) in H.
Qed.

Lemma ranges_loop_abort content_length pre spec post : forall acc,
  Forall (fun p => ~ raises (range_step content_length p)) pre ->
  range_step content_length spec = Ok ReturnNone ->
  ranges_loop content_length (pre ++ spec :: post) acc = Ok None.
Proof.
  induction pre as [|p pre IH]; simpl; intros acc Hpre Hspec.
  - by rewrite Hspec.
  - apply Forall_cons in Hpre as [Hp Hpre].
    destruct (range_step content_length p) as [[r| |]|e]; simpl; auto.
    destruct Hp. by exists e.
Qed.

End GetRanges.

(** * The Range header *)

(** Claim C2, as the code has it.  An absent or empty header value gives
    [None].  With [a] and [b] texts of digits writing [start] and [stop], and
    any unit [u] before the equals sign: the spec [a-b] gives the half-open
    pair [(start, stop + 1)] when [start < content_length] and
    [start <= stop], and makes the result [None] when
    [stop < start < content_length]; a spec whose [start] is not below the
    content length is dropped, and the specs after it are still read; [a-]
    gives [(start, content_length)] when [start < content_length] and is
    dropped otherwise; [-b] gives [(content_length - stop, content_length)],
    and [(0, content_length)] when [stop] exceeds the content length.  The
    four examples of the specification evaluate as it says. *)
Theorem get_ranges_forms (u a b : string) (content_length : Z) :
  Py.count "=" u = 0%nat -> is_digits a = true -> is_digits b = true ->
  let start := decimal a in
  let stop := decimal b in
  let header (specs : string) := Some (u +:+ "=" +:+ specs) in
  get_ranges None content_length = Ok None
  /\ get_ranges (Some EmptyString) content_length = Ok None
  /\ (start < content_length -> start <= stop ->
      get_ranges (header (a +:+ "-" +:+ b)) content_length
      = Ok (Some [(start, stop + 1)]))
  /\ (start < content_length -> stop < start ->
      get_ranges (header (a +:+ "-" +:+ b)) content_length = Ok None)
  /\ (content_length <= start ->
      get_ranges (header (a +:+ "-" +:+ b)) content_length = Ok (Some [])
      /\ forall rest,
          get_ranges (header (a +:+ "-" +:+ b +:+ "," +:+ rest)) content_length
          = get_ranges (header rest) content_length)
  /\ (start < content_length ->
      get_ranges (header (a +:+ "-")) content_length
      = Ok (Some [(start, content_length)]))
  /\ (content_length <= start ->
      get_ranges (header (a +:+ "-")) content_length = Ok (Some []))
  /\ (stop <= content_length ->
      get_ranges (header ("-" +:+ b)) content_length
      = Ok (Some [(content_length - stop, content_length)]))
  /\ (content_length < stop ->
      get_ranges (header ("-" +:+ b)) content_length
      = Ok (Some [(0, content_length)]))
  /\ get_ranges (Some "bytes=3-6") 10 = Ok (Some [(3, 7)])
  /\ get_ranges (Some "bytes=-5") 10 = Ok (Some [(5, 10)])
  /\ get_ranges (Some "bytes=0-") 3 = Ok (Some [(0, 3)])
  /\ get_ranges (Some "bytes=20-30") 10 = Ok (Some []).
Proof.
  intros Hu Ha Hb start stop header. subst header. cbv beta.
  assert (Hloop : forall specs,
    get_ranges (Some (u +:+ "=" +:+ specs)) content_length
    = ranges_loop content_length (Py.split "," specs) []).
  { intros specs. apply (get_ranges_cut _ u). by apply header_cut. }
  assert (Hab : Py.count "," (a +:+ "-" +:+ b) = 0%nat) by by apply spec_no_comma.
  split_and!; try reflexivity.
  - intros Hlt Hle. rewrite Hloop, split_none by done. simpl.
    rewrite range_step_both by done. fold start stop.
    destruct (Z.geb_spec start content_length); [lia |].
    destruct (Z.ltb_spec stop start); [lia | done].
  - intros Hlt Hback. rewrite Hloop, split_none by done. simpl.
    rewrite range_step_both by done. fold start stop.
    destruct (Z.geb_spec start content_length); [lia |].
    destruct (Z.ltb_spec stop start); [done | lia].
  - intros Hge. split.
    { rewrite Hloop, split_none by done. simpl.
      rewrite range_step_both by done. fold start.
      destruct (Z.geb_spec start content_length); [done | lia]. }
    intros rest. rewrite !Hloop.
    replace (a +:+ "-" +:+ b +:+ "," +:+ rest)
      with ((a +:+ "-" +:+ b) +:+ "," +:+ rest)
      by (by rewrite !append_assoc).
    change ("," +:+ rest) with (String "," rest).
    rewrite split_app by done. simpl.
    rewrite range_step_both by done. fold start.
    destruct (Z.geb_spec start content_length); [done | lia].
  - intros Hlt. rewrite Hloop, split_none; simpl.
    + rewrite range_step_open by done. fold start.
      destruct (Z.geb_spec start content_length); [lia |].
      destruct (Z.ltb_spec (content_length - 1) start); [lia |].
      by replace (content_length - 1 + 1) with content_length by lia.
    + by rewrite count_app, (digits_count _ a).
  - intros Hge. rewrite Hloop, split_none; simpl.
    + rewrite range_step_open by done. fold start.
      destruct (Z.geb_spec start content_length); [done | lia].
    + by rewrite count_app, (digits_count _ a).
  - intros Hle. rewrite Hloop, split_none; simpl.
    + rewrite range_step_suffix by done. fold stop.
      destruct (Z.gtb_spec stop content_length); [lia | done].
    + by rewrite (digits_count _ b).
  - intros Hlt. rewrite Hloop, split_none; simpl.
    + rewrite range_step_suffix by done. fold stop.
      destruct (Z.gtb_spec stop content_length); [done | lia].
    + by rewrite (digits_count _ b).
Qed.

Lemma get_ranges_forms_witness :
  get_ranges (Some "bytes=3-6") 10 = Ok (Some [(3, 7)])
  /\ get_ranges (Some "bytes=-6") 10 = Ok (Some [(4, 10)]).
Proof.
  pose proof (get_ranges_forms "bytes" "3" "6" 10 eq_refl eq_refl eq_refl)
    as (_ & _ & H1 & _ & _ & _ & _ & H2 & _).
  split; [apply H1 | apply H2]; by vm_compute.
Defined.

(** Claim C2 fails as stated: a spec with both bounds present, whose start
    lies inside the entity, gives no pair when its stop is below its start;
    the result is [None]. *)
Lemma get_ranges_backwards_gives_no_pair :
  get_ranges (Some "bytes=5-3") 10 = Ok None
  /\ get_ranges (Some "bytes=5-3") 10 <> Ok (Some [(5, 3 + 1)])
  /\ get_ranges (Some "bytes=20-") 10 = Ok (Some []).
Proof. split_and!; [reflexivity | discriminate | reflexivity]. Qed.







(** Claim C10.  The text before the first equals sign is never compared to
    [bytes]: the result depends only on the text after it.  With any unit [u]
    in front, [u=3-6] against a length of 10 gives [[(3, 7)]]. *)
Theorem range_unit_ignored (u : string) :
  Py.count "=" u = 0%nat ->
  get_ranges (Some (u +:+ "=3-6")) 10 = Ok (Some [(3, 7)])
  /\ get_ranges (Some (u +:+ "=3-6")) 10 = get_ranges (Some "bytes=3-6") 10
  /\ forall (specs : string) (content_length : Z),
      get_ranges (Some (u +:+ "=" +:+ specs)) content_length
      = get_ranges (Some ("bytes=" +:+ specs)) content_length.
Proof.
  intros Hu.
  assert (Hany : forall specs content_length,
    get_ranges (Some (u +:+ "=" +:+ specs)) content_length
    = ranges_loop content_length (Py.split "," specs) []).
  { intros. apply (get_ranges_cut _ u). by apply header_cut. }
  split_and!.
  - by rewrite (Hany "3-6").
  - by rewrite (Hany "3-6").
  - intros. by rewrite Hany.
Qed.

Lemma range_unit_ignored_witness :
  get_ranges (Some "apples=3-6") 10 = Ok (Some [(3, 7)])
  /\ get_ranges (Some "=3-6") 10 = Ok (Some [(3, 7)]).
Proof.
  split.
  - apply (range_unit_ignored "apples"). reflexivity.
  - apply (range_unit_ignored EmptyString). reflexivity.
Defined.


(** * HeaderMap *)

Section HeaderMapFacts.
Context {V : Type}.

(** Claim C6.  After [m[k] = v], reading any key whose title-cased form
    equals that of [k] returns [v].  Writing under [X-Foo] and then under
    [x-foo] leaves the map that the second write alone would leave: one entry
    for the two keys, and it holds the second value. *)
Theorem headermap_case_insensitive (m : gmap text V) (v v1 v2 : V) :
  (forall k k' : string,
     CaseInsensitiveDict.transform_key k' = CaseInsensitiveDict.transform_key k ->
     HeaderMap.getitem (HeaderMap.setitem m k v) k' = Ok v)
  /\ HeaderMap.getitem (HeaderMap.setitem m "content-type" v) "Content-Type" = Ok v
  /\ HeaderMap.getitem (HeaderMap.setitem m "content-type" v) "CONTENT-TYPE" = Ok v
  /\ HeaderMap.setitem (HeaderMap.setitem m "X-Foo" v1) "x-foo" v2
     = HeaderMap.setitem m "X-Foo" v2
  /\ size (HeaderMap.setitem (HeaderMap.setitem m "X-Foo" v1) "x-foo" v2)
     = size (HeaderMap.setitem m "X-Foo" v1)
  /\ HeaderMap.setitem (HeaderMap.setitem ∅ "X-Foo" v1) "x-foo" v2 = {[ ("X-Foo" : text) := v2 ]}
  /\ HeaderMap.getitem (HeaderMap.setitem (HeaderMap.setitem m "X-Foo" v1) "x-foo" v2)
       "X-Foo" = Ok v2.
Proof.
  assert (Hget : forall k k' : string,
    CaseInsensitiveDict.transform_key k' = CaseInsensitiveDict.transform_key k ->
    forall m' : gmap text V,
      HeaderMap.getitem (HeaderMap.setitem m' k v2) k' = Ok v2
      /\ HeaderMap.getitem (HeaderMap.setitem m' k v) k' = Ok v).
  { intros k k' Hk m'. unfold HeaderMap.getitem, HeaderMap.setitem.
    unfold __getitem__, __setitem__. by rewrite Hk, !lookup_insert_eq. }
  assert (Hsame : CaseInsensitiveDict.transform_key "x-foo"
                  = CaseInsensitiveDict.transform_key "X-Foo") by reflexivity.
  unfold HeaderMap.setitem, __setitem__ in *. rewrite Hsame.
  split_and!.
  - intros k k' Hk. by apply Hget.
  - by apply (Hget "content-type" "Content-Type").
  - by apply (Hget "content-type" "CONTENT-TYPE").
  - apply insert_insert_eq.
  - rewrite insert_insert_eq, !map_size_insert. by destruct (m !! _).
  - by rewrite insert_insert_eq.
  - rewrite insert_insert_eq. rewrite <- Hsame at 1. by apply (Hget "x-foo" "X-Foo").
Qed.

End HeaderMapFacts.

(** The second key pair is U+00E9 followed by [t], read back as U+00C9
    followed by [T]. *)
Lemma headermap_case_insensitive_witness :
  HeaderMap.getitem (HeaderMap.setitem (∅ : gmap text string) "content-type" "text/html")
    "Content-Type" = Ok "text/html"
  /\ HeaderMap.getitem
       (HeaderMap.setitem (∅ : gmap text string) (String "233" "t") "1")
       (String "201" "T") = Ok "1".
Proof.
  split.
  - apply (proj1 (headermap_case_insensitive ∅ "text/html" "a" "b")
             "content-type" "Content-Type").
    reflexivity.
  - apply (proj1 (headermap_case_insensitive ∅ "1" "a" "b")
             (String "233" "t") (String "201" "T")).
    reflexivity.
Defined.

(** * Status validation *)

Section ValidStatusFacts.
Variable responses : gmap Z (string * string).

Lemma valid_status_numeric status n :
  numeric_code status = Some n ->
  valid_status responses status =
    if (n <? 100) || (n >? 599) then
      Raise (ValueError ("Illegal response status from server (" +:+
                         repr_int n +:+ " is out of range)."))
    else
      let '(default_reason, message) :=
        default (EmptyString, EmptyString) (response_codes responses !! n) in
      Ok (n, default default_reason (status_parts status).2, message).
Proof.
  unfold numeric_code, code_part, valid_status.
  destruct (status_parts status) as [code reason]. simpl.
  destruct code as [|k|s]; simpl; [done | by intros [= ->] |].
  destruct (Py.int s); [by intros [= ->] | done].
Qed.

Lemma valid_status_non_numeric status :
  numeric_code status = None ->
  exists s, code_part status = StatusStr s
            /\ valid_status responses status = Raise (non_numeric (Py.repr s)).
Proof.
  unfold numeric_code, code_part, valid_status.
  destruct (status_parts status) as [code reason] eqn:Hparts. simpl.
  destruct code as [|k|s]; simpl; [| done |].
  - exfalso. unfold status_parts in Hparts.
    destruct (if status_is_false status then StatusInt 200 else status) eqn:E;
      try discriminate.
    + by destruct status as [|[]|[]].
    + by destruct (Py.partition " " s).
  - intros H. exists s. split; [done |]. by destruct (Py.int s).
Qed.

(** An argument that is not false is read as it is given; a false one is
    read as 200. *)
Lemma code_part_given status :
  status_is_false status = false -> code_part status = given_code_part status.
Proof.
  unfold code_part, given_code_part, status_parts. intros ->.
  destruct status as [| n | s]; [done | done |].
  by destruct (Py.partition " " s).
Qed.

Lemma numeric_code_given status :
  status_is_false status = false -> numeric_code status = given_code status.
Proof.
  intros H. unfold numeric_code, given_code. by rewrite code_part_given.
Qed.

Lemma numeric_code_false status :
  status_is_false status = true -> numeric_code status = Some 200.
Proof.
  unfold numeric_code, code_part, status_parts. by intros ->.
Qed.

Lemma valid_status_false status :
  status_is_false status = true ->
  valid_status responses status = valid_status responses (StatusInt 200).
Proof.
  unfold valid_status, status_parts. by intros ->.
Qed.

(** Claim C8, as the code has it.  An argument that is false ([None], 0, the
    empty text) is replaced by 200 before anything is read, and never raises.
    For any other argument, [valid_status] raises exactly when the code part
    of the argument (the integer, or the text before the first space) does
    not convert to an integer or converts to one outside 100..599, and the
    error names the input; for a code in range it returns the triple of code,
    reason and description. *)
Theorem valid_status_raises_iff (status : status_arg) :
  (raises (valid_status responses status) <->
     status_is_false status = false
     /\ match given_code status with
        | None => True
        | Some n => n < 100 \/ 599 < n
        end)
  /\ (status_is_false status = true ->
        valid_status responses status = valid_status responses (StatusInt 200)
        /\ exists reason message,
            valid_status responses status = Ok (200, reason, message))
  /\ (forall n, status_is_false status = false -> given_code status = Some n ->
        100 <= n <= 599 ->
        exists reason message,
          valid_status responses status = Ok (n, reason, message))
  /\ (forall n, status_is_false status = false -> given_code status = Some n ->
        n < 100 \/ 599 < n ->
        valid_status responses status
        = Raise (ValueError ("Illegal response status from server (" +:+
                             repr_int n +:+ " is out of range).")))
  /\ (status_is_false status = false -> given_code status = None ->
        exists s, given_code_part status = StatusStr s /\
          valid_status responses status
          = Raise (ValueError ("Illegal response status from server (" +:+
                               Py.repr s +:+ " is non-numeric).")))
  /\ valid_status responses (StatusStr "bogus")
     = Raise (ValueError
                "Illegal response status from server ('bogus' is non-numeric).")
  /\ valid_status responses (StatusInt 700)
     = Raise (ValueError
                "Illegal response status from server (700 is out of range).").
Proof.
  assert (Hin : forall st n, numeric_code st = Some n -> 100 <= n <= 599 ->
            exists reason message,
              valid_status responses st = Ok (n, reason, message)).
  { intros st n Hn Hrange. rewrite (valid_status_numeric _ _ Hn).
    destruct (Z.ltb_spec n 100), (Z.gtb_spec n 599); simpl; try lia.
    destruct (default _ _) as [r msg]. by eexists _, _. }
  assert (Hout : forall st n, numeric_code st = Some n -> n < 100 \/ 599 < n ->
            valid_status responses st
            = Raise (ValueError ("Illegal response status from server (" +:+
                                 repr_int n +:+ " is out of range)."))).
  { intros st n Hn Hrange. rewrite (valid_status_numeric _ _ Hn).
    destruct (Z.ltb_spec n 100), (Z.gtb_spec n 599); simpl; try done; lia. }
  split_and!; try reflexivity.
  - destruct (status_is_false status) eqn:Hf.
    + destruct (Hin status 200 (numeric_code_false _ Hf)) as (r & msg & ->);
        [lia |].
      split; [by intros [e He] | by intros [? _]].
    + rewrite <- (numeric_code_given _ Hf).
      destruct (numeric_code status) as [n|] eqn:Hn.
      * destruct (Z.lt_ge_cases n 100) as [Hlo | Hlo];
          [| destruct (Z.lt_ge_cases 599 n) as [Hhi | Hhi]].
        -- rewrite (Hout _ _ Hn) by lia. split; [by auto | intros _; by eexists].
        -- rewrite (Hout _ _ Hn) by lia. split; [by auto | intros _; by eexists].
        -- destruct (Hin _ _ Hn) as (r & msg & ->); [lia |].
           split; [by intros [e He] | intros [_ ?]; lia].
      * destruct (valid_status_non_numeric _ Hn) as (s & _ & ->).
        split; [done | intros _; by eexists].
  - intros Hf. split; [by apply valid_status_false |].
    apply Hin; [by apply numeric_code_false | lia].
  - intros n Hf Hn. rewrite <- (numeric_code_given _ Hf) in Hn. by apply Hin.
  - intros n Hf Hn. rewrite <- (numeric_code_given _ Hf) in Hn. by apply Hout.
  - intros Hf Hn. rewrite <- (numeric_code_given _ Hf) in Hn.
    destruct (valid_status_non_numeric _ Hn) as (s & Hs & ->).
    exists s. by rewrite <- (code_part_given _ Hf).
Qed.

End ValidStatusFacts.

Lemma valid_status_raises_iff_witness :
  raises (valid_status ∅ (StatusStr "99 Low"))
  /\ raises (valid_status ∅ (StatusStr "20x"))
  /\ exists reason message,
      valid_status ∅ (StatusStr "404 Gone Missing") = Ok (404, reason, message).
Proof.
  split_and!.
  - apply (proj1 (valid_status_raises_iff ∅ (StatusStr "99 Low"))).
    split; [reflexivity |]. change (99 < 100 \/ 599 < 99). lia.
  - apply (proj1 (valid_status_raises_iff ∅ (StatusStr "20x"))).
    split; [reflexivity | exact I].
  - destruct (valid_status_raises_iff ∅ (StatusStr "404 Gone Missing"))
      as (_ & _ & H & _).
    apply H; [reflexivity | reflexivity | lia].
Defined.

(** Claim C8 fails as stated: the code part of the argument 0 is the integer
    0, which lies outside 100..599, and the code part of the empty text does
    not convert to an integer; neither raises, both are answered as 200. *)
Lemma valid_status_false_argument_is_accepted :
  let responses : gmap Z (string * string) :=
    {[ 200 := ("OK", "Request fulfilled, document follows") ]} in
  given_code (StatusInt 0) = Some 0
  /\ valid_status responses (StatusInt 0)
     = Ok (200, "OK", "Request fulfilled, document follows")
  /\ given_code (StatusStr EmptyString) = None
  /\ valid_status responses (StatusStr EmptyString)
     = Ok (200, "OK", "Request fulfilled, document follows").
Proof. split_and!; reflexivity. Qed.

(** * Query strings *)

Section QueryStringFacts.
Variable unquote_plus : string -> result string.

Lemma span_digits_app a r : forall acc n,
  Py.forallb Py.isdigit a = true ->
  Float.span_digits acc n (a +:+ r)
  = Float.span_digits (decimal_from acc a) (n + Z.of_nat (String.length a)) r.
Proof.
  induction a as [|c a IH]; intros acc n H.
  - simpl. f_equal. lia.
  - simpl in H. apply andb_prop in H as [Hc Ha].
    change (String c a +:+ r) with (String c (a +:+ r)).
    simpl. rewrite Hc, IH by done. f_equal. lia.
Qed.

Lemma span_digits_grows s : forall acc n,
  n <= (Float.span_digits acc n s).1.2.
Proof.
  induction s as [|c s IH]; intros acc n; simpl; [lia |].
  destruct (Py.isdigit c); simpl; [| lia].
  specialize (IH (10 * acc + Py.digit_val c) (n + 1)). lia.
Qed.

Lemma digits_length a : is_digits a = true -> 0 < Z.of_nat (String.length a).
Proof. destruct a; [done | simpl; lia]. Qed.

(** The pattern matches as soon as the text starts with digits, a comma and
    digits, whatever follows. *)
Lemma image_map_prefix a b rest :
  is_digits a = true -> is_digits b = true ->
  image_map_pattern_match (a +:+ "," +:+ b +:+ rest) = true.
Proof.
  intros Ha Hb. unfold image_map_pattern_match.
  pose proof (digits_length _ Ha). pose proof (digits_length _ Hb).
  apply andb_prop in Ha as [_ Ha], Hb as [_ Hb].
  rewrite span_digits_app by done.
  change ("," +:+ b +:+ rest) with (String "," (b +:+ rest)). simpl.
  rewrite span_digits_app by done.
  pose proof (span_digits_grows rest (decimal_from 0 b)
                (0 + Z.of_nat (String.length b))) as Hg.
  destruct (Float.span_digits _ _ rest) as [[v n2] r2]. simpl in Hg.
  apply andb_true_intro. split; apply Z.ltb_lt; lia.
Qed.

(** Claim C7, on the code.  The coordinates pattern is tried with [match],
    which anchors at the start only.  A query string made of digits, a comma
    and digits is read as coordinates; so is one that merely starts that way:
    with text after the second number the conversion of the second part
    raises, and a third comma-separated part is ignored. *)
Theorem image_map_match_is_not_anchored :
  parse_query_string unquote_plus "12,34" true
  = Ok (<["y" := QInt 34]> (<["x" := QInt 12]> ∅))
  /\ (forall a b rest : string, is_digits a = true -> is_digits b = true ->
        image_map_pattern_match (a +:+ "," +:+ b +:+ rest) = true)
  /\ parse_query_string unquote_plus "12,34abc" true
     = Raise (ValueError "invalid literal for int() with base 10: '34abc'")
  /\ parse_query_string unquote_plus "1,2,3" true
     = Ok (<["y" := QInt 2]> (<["x" := QInt 1]> ∅)).
Proof.
  split_and!; try reflexivity. intros a b rest. apply image_map_prefix.
Qed.

End QueryStringFacts.

Lemma image_map_match_is_not_anchored_witness :
  image_map_pattern_match "12,34&a=1" = true.
Proof.
  apply (proj1 (proj2 (image_map_match_is_not_anchored Ok)) "12" "34" "&a=1");
    reflexivity.
Defined.

(** * Splitting a header value *)

Section HeaderSplit.

Lemma header_split_cons v :
  exists h t, RE_HEADER_SPLIT_split v = h :: t.
Proof.
  destruct v as [|c v]; simpl; [by eexists _, _ |].
  destruct (_ && _); [by eexists _, _ |].
  destruct (RE_HEADER_SPLIT_split v); by eexists _, _.
Qed.

Lemma join_cons_char c h t :
  Py.join "," (String c h :: t) = String c (Py.join "," (h :: t)).
Proof. by destruct t. Qed.

Lemma header_split_join v : Py.join "," (RE_HEADER_SPLIT_split v) = v.
Proof.
  induction v as [|c v IH]; [done |].
  destruct (header_split_cons v) as (h & t & Hv).
  change (RE_HEADER_SPLIT_split (String c v)) with
    (if Ascii.eqb c "," && Nat.even (Py.count Py.dquote v)
     then EmptyString :: RE_HEADER_SPLIT_split v
     else match RE_HEADER_SPLIT_split v with
          | h :: t => String c h :: t
          | [] => [String c v]
          end).
  destruct (Ascii.eqb_spec c ",") as [-> | Hc]; simpl.
  - destruct (Nat.even (Py.count Py.dquote v)).
    + rewrite Hv in *. simpl. by rewrite <- IH.
    + rewrite Hv in *. by rewrite join_cons_char, IH.
  - rewrite Hv in *. by rewrite join_cons_char, IH.
Qed.

Lemma quotes_cons c s :
  quotes (String c s) = ((if Ascii.eqb c Py.dquote then 1 else 0) + quotes s)%nat.
Proof. reflexivity. Qed.

(** The segments after the first are balanced, and the first has the parity
    of the whole value. *)
Lemma header_split_parity v :
  exists h t, RE_HEADER_SPLIT_split v = h :: t
              /\ Forall balanced t
              /\ Nat.even (quotes h) = Nat.even (quotes v).
Proof.
  induction v as [|c v (h & t & Hv & Ht & Hh)]; [by exists EmptyString, [] |].
  change (RE_HEADER_SPLIT_split (String c v)) with
    (if Ascii.eqb c "," && Nat.even (quotes v)
     then EmptyString :: RE_HEADER_SPLIT_split v
     else match RE_HEADER_SPLIT_split v with
          | h :: t => String c h :: t
          | [] => [String c v]
          end).
  rewrite Hv.
  destruct (Ascii.eqb c "," && Nat.even (quotes v)) eqn:E.
  - apply andb_prop in E as [->%Ascii.eqb_eq Ev].
    exists EmptyString, (h :: t). split_and!; [done | | by rewrite quotes_cons].
    apply Forall_cons. split; [| done]. unfold balanced. by rewrite Hh.
  - exists (String c h), t. split_and!; [done..|].
    rewrite !quotes_cons, !Nat.even_add, Hh. done.
Qed.

(** Claim C9, as the code has it.  Joining the segments with commas gives the
    header value back, so splitting again gives the same segments, in the
    same number.  The splitter counts the double quotes that follow a comma:
    every segment after the first holds an even number of them, and the first
    does too exactly when the whole value does. *)
Theorem header_split_idempotent (v : string) :
  Py.join "," (RE_HEADER_SPLIT_split v) = v
  /\ RE_HEADER_SPLIT_split (Py.join "," (RE_HEADER_SPLIT_split v))
     = RE_HEADER_SPLIT_split v
  /\ length (RE_HEADER_SPLIT_split (Py.join "," (RE_HEADER_SPLIT_split v)))
     = length (RE_HEADER_SPLIT_split v)
  /\ Forall balanced (tl (RE_HEADER_SPLIT_split v))
  /\ (balanced v <-> Forall balanced (RE_HEADER_SPLIT_split v)).
Proof.
  rewrite header_split_join.
  destruct (header_split_parity v) as (h & t & -> & Ht & Hh).
  split_and!; try done. unfold balanced at 1. rewrite <- Hh. split.
  - intros Hv. by apply Forall_cons.
  - by intros [Hv _]%Forall_cons.
Qed.

(** Claim C9 fails as stated: with an odd number of double quotes in the
    value, the first segment holds an unmatched one. *)
Lemma header_split_unmatched_quote :
  RE_HEADER_SPLIT_split (String Py.dquote "a,b") = [String Py.dquote "a"; "b"]
  /\ ~ balanced (String Py.dquote "a").
Proof. split; [reflexivity | discriminate]. Qed.

End HeaderSplit.

(** * The order of floats that are not NaN *)

Section FloatOrder.

Ltac float_cases :=
  repeat match goal with
         | x : spec_float |- _ => destruct x as [[]|[]| |[] ? ?]
         end;
  try done.

Lemma ltb_key (x y : spec_float) :
  is_number x -> is_number y ->
  Float.ltb x y = true <-> key_lt (float_key x) (float_key y).
Proof.
  unfold is_number, Float.ltb, SFltb, key_lt. intros Hx Hy.
  float_cases; simpl;
    repeat match goal with
           | |- context [Z.compare ?a ?b] => destruct (Z.compare_spec a b)
           | |- context [Pos.compare_cont Eq ?a ?b] =>
               change (Pos.compare_cont Eq a b) with (Pos.compare a b);
               destruct (Pos.compare_spec a b)
           end;
    simpl; split; intros ?; try done; try lia.
Qed.

Lemma eqb_key (x y : spec_float) :
  is_number x -> is_number y ->
  Float.eqb x y = true <-> key_eq (float_key x) (float_key y).
Proof.
  unfold is_number, Float.eqb, SFeqb, key_eq. intros Hx Hy.
  float_cases; simpl;
    repeat match goal with
           | |- context [Z.compare ?a ?b] => destruct (Z.compare_spec a b)
           | |- context [Pos.compare_cont Eq ?a ?b] =>
               change (Pos.compare_cont Eq a b) with (Pos.compare a b);
               destruct (Pos.compare_spec a b)
           end;
    simpl; split; intros ?; try done; try lia.
Qed.

End FloatOrder.

(** * [sorted] on a comparison that does not raise *)

Section SortedFacts.
Context {A : Type}.
Variable lt : A -> A -> result bool.
Variable ltb : A -> A -> bool.
Variable P : A -> Prop.
Hypothesis lt_ok : forall x y, P x -> P y -> lt x y = Ok (ltb x y).
Hypothesis ltb_asym : forall x y, P x -> P y -> ltb x y = true -> ltb y x = false.
Hypothesis ltb_negtrans : forall x y z, P x -> P y -> P z ->
  ltb x y = false -> ltb y z = false -> ltb x z = false.

Local Abbreviation not_less := (fun x y : A => ltb x y = false).

Lemma insert_left_sorted x racc :
  P x -> Forall P racc -> StronglySorted not_less racc ->
  exists r, insert_left lt x racc = Ok r
            /\ r ≡ₚ x :: racc /\ Forall P r /\ StronglySorted not_less r.
Proof.
  intros Hx. induction racc as [|y racc IH]; intros HP Hs.
  - exists [x]. split_and!; [done | done | by apply Forall_singleton |].
    by repeat constructor.
  - apply Forall_cons in HP as [Hy HP].
    apply StronglySorted_inv in Hs as [Hs Hy_le].
    simpl. rewrite (lt_ok _ _ Hx Hy). simpl.
    destruct (ltb x y) eqn:Hxy.
    + destruct (IH HP Hs) as (r & -> & Hperm & HPr & Hsr). simpl.
      exists (y :: r). split_and!; [done | | by apply Forall_cons |].
      * rewrite Hperm. apply perm_swap.
      * constructor; [done |]. rewrite Hperm.
        apply Forall_cons. split; [by apply ltb_asym | done].
    + exists (x :: y :: racc). split_and!; [done | done | |].
      * apply Forall_cons. split; [done |]. by apply Forall_cons.
      * constructor; [by constructor |].
        apply Forall_cons. split; [done |].
        rewrite Forall_forall in Hy_le, HP. apply Forall_forall.
        intros z Hz. apply (ltb_negtrans x y z); auto.
        all: apply HP || apply Hy_le; by apply list_elem_of_In.
Qed.

Lemma sort_from_sorted l : forall racc,
  Forall P l -> Forall P racc -> StronglySorted not_less racc ->
  exists r, sort_from lt racc l = Ok (rev r)
            /\ r ≡ₚ l ++ racc /\ Forall P r /\ StronglySorted not_less r.
Proof.
  induction l as [|x l IH]; intros racc Hl HP Hs.
  - by exists racc.
  - apply Forall_cons in Hl as [Hx Hl].
    destruct (insert_left_sorted x racc Hx HP Hs) as (r1 & E & Hperm & HP1 & Hs1).
    destruct (IH r1 Hl HP1 Hs1) as (r & E' & Hperm' & HPr & Hsr).
    exists r. simpl. rewrite E. simpl. split_and!; try done.
    rewrite Hperm', Hperm. by rewrite Permutation_middle.
Qed.

(** Sorting and reversing gives a permutation of the input in which no
    element is less than a later one. *)
Lemma sorted_reversed l :
  Forall P l ->
  exists r, sorted lt l = Ok (rev r)
            /\ r ≡ₚ l /\ Forall P r /\ StronglySorted not_less r.
Proof.
  intros Hl.
  destruct (sort_from_sorted l [] Hl) as (r & E & Hperm & HPr & Hs);
    [done | constructor |].
  exists r. rewrite app_nil_r in Hperm. by split_and!.
Qed.

End SortedFacts.

(** * The order of Accept elements *)

Section AcceptOrder.

Lemma str_lt_le a b : Py.str_lt a b = false <-> String.le b a.
Proof.
  unfold Py.str_lt, String.le, String.leb.
  rewrite (String.compare_antisym a b).
  destruct (String.compare b a); simpl; split; intros; done.
Qed.

Lemma str_lt_asym a b : Py.str_lt a b = true -> Py.str_lt b a = false.
Proof.
  intros H. apply str_lt_le.
  destruct (total String.le a b) as [Hab | Hba]; [done |].
  apply str_lt_le in Hba. congruence.
Qed.

Lemma str_lt_negtrans a b c :
  Py.str_lt a b = false -> Py.str_lt b c = false -> Py.str_lt a c = false.
Proof. rewrite !str_lt_le. intros Hba Hcb. by etrans. Qed.

Lemma accept_lt_ok x y :
  has_quality x -> has_quality y ->
  AcceptElement.__lt__ x y = Ok (accept_ltb x y).
Proof.
  intros (qx & Hx & _) (qy & Hy & _).
  unfold AcceptElement.__lt__, accept_ltb. rewrite Hx, Hy. simpl.
  by destruct (Float.eqb qx qy).
Qed.

(** The comparison is the lexicographic one: by quality, then by rendering. *)
Lemma accept_ltb_spec x y qx qy :
  AcceptElement.qvalue x = Ok qx -> AcceptElement.qvalue y = Ok qy ->
  is_number qx -> is_number qy ->
  accept_ltb x y = true <->
    (key_lt (float_key qx) (float_key qy)
     \/ (key_eq (float_key qx) (float_key qy)
         /\ Py.str_lt (HeaderElement.str x) (HeaderElement.str y) = true)).
Proof.
  intros Hx Hy Nx Ny. unfold accept_ltb. rewrite Hx, Hy.
  pose proof (ltb_key qx qy Nx Ny) as Hlt.
  pose proof (eqb_key qx qy Nx Ny) as Heq.
  assert (Hexcl : key_eq (float_key qx) (float_key qy) ->
                  ~ key_lt (float_key qx) (float_key qy))
    by (unfold key_eq, key_lt; lia).
  destruct (Float.eqb qx qy).
  - split; [intros H; right; split; [by apply Heq | done] |].
    intros [H | [_ H]]; [| done]. exfalso. apply Hexcl; [by apply Heq | done].
  - rewrite Hlt. split; [by left |].
    intros [H | [H _]]; [done |]. by apply Heq in H.
Qed.

Lemma accept_ltb_asym x y :
  has_quality x -> has_quality y ->
  accept_ltb x y = true -> accept_ltb y x = false.
Proof.
  intros (qx & Hx & Nx) (qy & Hy & Ny).
  rewrite <- not_true_iff_false.
  rewrite (accept_ltb_spec x y qx qy), (accept_ltb_spec y x qy qx) by done.
  pose proof (str_lt_asym (HeaderElement.str x) (HeaderElement.str y)) as Hs.
  unfold key_lt, key_eq.
  destruct (float_key qx) as [[a1 a2] a3], (float_key qy) as [[b1 b2] b3].
  simpl. intros [H | [H Hxy]] [H' | [H' Hyx]]; try lia.
  rewrite (Hs Hxy) in Hyx. done.
Qed.

Lemma accept_ltb_negtrans x y z :
  has_quality x -> has_quality y -> has_quality z ->
  accept_ltb x y = false -> accept_ltb y z = false -> accept_ltb x z = false.
Proof.
  intros (qx & Hx & Nx) (qy & Hy & Ny) (qz & Hz & Nz).
  rewrite <- !not_true_iff_false.
  rewrite (accept_ltb_spec x y qx qy), (accept_ltb_spec y z qy qz),
    (accept_ltb_spec x z qx qz) by done.
  pose proof (str_lt_negtrans (HeaderElement.str x) (HeaderElement.str y)
                (HeaderElement.str z)) as Hs.
  unfold key_lt, key_eq.
  destruct (float_key qx) as [[a1 a2] a3], (float_key qy) as [[b1 b2] b3],
    (float_key qz) as [[c1 c2] c3].
  simpl. intros Hxy Hyz Hxz.
  destruct (Py.str_lt (HeaderElement.str x) (HeaderElement.str y)),
    (Py.str_lt (HeaderElement.str y) (HeaderElement.str z)),
    (Py.str_lt (HeaderElement.str x) (HeaderElement.str z));
    try (by specialize (Hs eq_refl eq_refl)).
  all: assert (Hf : ~ (false = true)) by done;
    assert (Ht : true = true) by done;
    revert Hf Ht; generalize (false = true) (true = true); intros; lia.
Qed.

Lemma not_less_preferred x y :
  has_quality x -> has_quality y -> accept_ltb x y = false -> preferred x y.
Proof.
  intros (qx & Hx & Nx) (qy & Hy & Ny).
  rewrite <- not_true_iff_false, (accept_ltb_spec x y qx qy) by done.
  intros H. exists qx, qy. split_and!; [done | done |].
  rewrite (ltb_key qy qx), (eqb_key qx qy) by done.
  rewrite <- str_lt_le.
  revert H. unfold key_lt, key_eq.
  destruct (float_key qx) as [[a1 a2] a3], (float_key qy) as [[b1 b2] b3].
  simpl. destruct (Py.str_lt (HeaderElement.str x) (HeaderElement.str y));
    intros H.
  - left.
    assert (~ (a1 < b1 \/ a1 = b1 /\ (a2 < b2 \/ a2 = b2 /\ a3 < b3))
            /\ ~ (a1 = b1 /\ a2 = b2 /\ a3 = b3)) as [H1 H2]
      by (split; intros ?; apply H; auto).
    lia.
  - assert (a1 < b1 \/ a1 = b1 /\ (a2 < b2 \/ a2 = b2 /\ a3 < b3)
            \/ (a1 = b1 /\ a2 = b2 /\ a3 = b3)
            \/ b1 < a1 \/ b1 = a1 /\ (b2 < a2 \/ b2 = a2 /\ b3 < a3)) as Hc
      by lia.
    destruct Hc as [Hc | [Hc | [Hc | Hc]]]; try (exfalso; tauto); auto.
Qed.

Lemma has_qualityb_all l :
  forallb has_qualityb l = true -> Forall has_quality l.
Proof.
  induction l as [|e l IH]; simpl; [by constructor |].
  intros [He Hl]%andb_prop. constructor; [| by apply IH].
  unfold has_qualityb in He. unfold has_quality, is_number.
  destruct (AcceptElement.qvalue e) as [q|]; [| done].
  exists q. split; [done |]. by destruct (Float.is_nan q).
Qed.

Lemma sorted_preferred l :
  Forall has_quality l ->
  StronglySorted (fun x y => accept_ltb x y = false) l ->
  StronglySorted preferred l.
Proof.
  induction l as [|x l IH]; intros HP Hs; [constructor |].
  apply Forall_cons in HP as [Hx HP].
  apply StronglySorted_inv in Hs as [Hs Hx_le].
  constructor; [by apply IH |].
  rewrite Forall_forall in HP, Hx_le. apply Forall_forall.
  intros y Hy. apply not_less_preferred; auto.
Qed.

End AcceptOrder.

(** * [sorted] on any comparison *)

Section SortedAny.
Context {A : Type}.
Variable lt : A -> A -> result bool.

Lemma insert_left_perm x racc r :
  insert_left lt x racc = Ok r -> r ≡ₚ x :: racc.
Proof.
  revert r. induction racc as [|y racc IH]; simpl; intros r.
  - by intros [= <-].
  - destruct (lt x y) as [[]|]; simpl; [| by intros [= <-] | done].
    destruct (insert_left lt x racc) as [r'|]; simpl; [| done].
    intros [= <-]. rewrite (IH r' eq_refl). apply perm_swap.
Qed.

Lemma insert_left_raise x racc e :
  insert_left lt x racc = Raise e -> exists y, y ∈ racc /\ lt x y = Raise e.
Proof.
  induction racc as [|y racc IH]; simpl; [done |].
  destruct (lt x y) as [[]|e'] eqn:E; simpl.
  - destruct (insert_left lt x racc) as [r'|]; simpl; [done |].
    intros [= ->]. destruct (IH eq_refl) as (z & Hz & Hlt).
    exists z. split; [by apply elem_of_cons; right | done].
  - done.
  - intros [= ->]. exists y. split; [by apply elem_of_cons; left | done].
Qed.

Lemma sort_from_perm l : forall racc r,
  sort_from lt racc l = Ok r -> r ≡ₚ racc ++ l.
Proof.
  induction l as [|x l IH]; simpl; intros racc r.
  - intros [= <-]. by rewrite <- Permutation_rev, app_nil_r.
  - destruct (insert_left lt x racc) as [r1|] eqn:E; simpl; [| done].
    intros H. rewrite (IH _ _ H), (insert_left_perm _ _ _ E).
    simpl. apply Permutation_middle.
Qed.

Lemma sort_from_raise l : forall racc e,
  sort_from lt racc l = Raise e ->
  exists x y, x ∈ racc ++ l /\ y ∈ racc ++ l /\ lt x y = Raise e.
Proof.
  induction l as [|x l IH]; simpl; intros racc e; [done |].
  destruct (insert_left lt x racc) as [r1|e'] eqn:E; simpl.
  - intros H. destruct (IH _ _ H) as (a & b & Ha & Hb & Hlt).
    pose proof (insert_left_perm _ _ _ E) as Hperm.
    assert (Hsub : forall z, z ∈ r1 ++ l -> z ∈ racc ++ x :: l).
    { intros z. rewrite Hperm. rewrite !elem_of_app, !elem_of_cons. tauto. }
    exists a, b. auto.
  - intros [= ->]. destruct (insert_left_raise _ _ _ E) as (y & Hy & Hlt).
    exists x, y. rewrite !elem_of_app, !elem_of_cons. auto.
Qed.

End SortedAny.

Section SortedCompares.
Context {A : Type}.
Variable lt : A -> A -> result bool.
Variable good : A -> Prop.
Hypothesis lt_good : forall x y b, lt x y = Ok b -> good x /\ good y.

Lemma insert_left_good x racc r :
  racc <> [] -> (2 <= length racc -> Forall good racc)%nat ->
  insert_left lt x racc = Ok r -> Forall good r.
Proof.
  intros Hne Hracc H. pose proof (insert_left_perm _ _ _ _ H) as Hperm.
  destruct racc as [|y racc]; [done |]. simpl in H.
  destruct (lt x y) as [b|] eqn:E; [| done].
  apply lt_good in E as [Hx Hy]. rewrite Hperm.
  apply Forall_cons. split; [done |].
  destruct racc as [|z racc]; [by apply Forall_singleton |].
  apply Hracc. simpl. lia.
Qed.

(** A sort of two elements or more that returns has compared every element. *)
Lemma sort_from_good l : forall racc r,
  (2 <= length racc -> Forall good racc)%nat ->
  (2 <= length racc + length l)%nat ->
  sort_from lt racc l = Ok r -> Forall good (racc ++ l).
Proof.
  induction l as [|x l IH]; simpl; intros racc r Hracc Hlen H.
  - rewrite app_nil_r. apply Hracc. lia.
  - destruct (insert_left lt x racc) as [r1|] eqn:E; simpl in H; [| done].
    pose proof (insert_left_perm _ _ _ _ E) as Hperm.
    assert (Hlen1 : length r1 = S (length racc)) by by rewrite Hperm.
    assert (Hmid : racc ++ x :: l ≡ₚ r1 ++ l).
    { rewrite Hperm. simpl. by rewrite Permutation_middle. }
    rewrite Hmid. apply (IH r1 r); [| lia | done].
    destruct racc as [|y racc].
    + simpl in Hlen1. intros. lia.
    + intros _. by apply (insert_left_good x (y :: racc)).
Qed.

End SortedCompares.

(** * What [header_elements] raises *)

Section HeaderElementsRaise.

Lemma qvalue_raise (x : HeaderElement) e :
  AcceptElement.qvalue x = Raise e -> malformed x /\ e = malformed_error x.
Proof.
  unfold AcceptElement.qvalue, malformed, malformed_error.
  destruct (Float.parse _); [done |]. by intros [= <-].
Qed.

Lemma accept_lt_raise (x y : HeaderElement) e :
  AcceptElement.__lt__ x y = Raise e ->
  (malformed x /\ e = malformed_error x) \/ (malformed y /\ e = malformed_error y).
Proof.
  unfold AcceptElement.__lt__.
  destruct (AcceptElement.qvalue x) as [qx|ex] eqn:Ex; simpl.
  - destruct (AcceptElement.qvalue y) as [qy|ey] eqn:Ey; simpl.
    + by destruct (Float.eqb qx qy).
    + intros [= ->]. right. by apply qvalue_raise.
  - intros [= ->]. left. by apply qvalue_raise.
Qed.

Lemma header_elements_unfold fieldname c fv :
  header_elements fieldname (Some (String c fv))
  = match sorted (element_lt fieldname)
            (parse_elements fieldname (String c fv)) with
    | Ok r => Ok (rev r)
    | Raise e => Raise e
    end.
Proof. reflexivity. Qed.

(** Whatever [header_elements] raises is the 400 error of a parsed element
    whose [q] does not convert, and the field is of the Accept family. *)
Lemma header_elements_raise_inv (fieldname : text) (fieldvalue : option string)
  (e : exn) :
  header_elements fieldname fieldvalue = Raise e ->
  is_accept_field fieldname = true
  /\ exists v x, fieldvalue = Some v
                 /\ x ∈ parse_elements fieldname v
                 /\ malformed x /\ e = malformed_error x.
Proof.
  destruct fieldvalue as [[|c fv]|]; try done.
  rewrite header_elements_unfold.
  destruct (sorted _ _) as [r|e'] eqn:E; [done |]. intros [= ->].
  apply sort_from_raise in E as (x & y & Hx & Hy & Hlt). simpl in Hx, Hy.
  unfold element_lt in Hlt.
  destruct (is_accept_field fieldname); [| done]. split; [done |].
  apply accept_lt_raise in Hlt as [[Hm ->] | [Hm ->]]; eauto 10.
Qed.

(** With two elements or more every element is compared, so one whose [q]
    does not convert makes the call raise. *)
Lemma header_elements_malformed (fieldname : text) (fieldvalue : string)
  (x : HeaderElement) :
  is_accept_field fieldname = true ->
  (2 <= length (RE_HEADER_SPLIT_split fieldvalue))%nat ->
  x ∈ parse_elements fieldname fieldvalue -> malformed x ->
  raises (header_elements fieldname (Some fieldvalue)).
Proof.
  intros Hfield Hlen Hx Hbad.
  destruct fieldvalue as [|c fv]; [simpl in Hlen; lia |].
  rewrite header_elements_unfold. unfold element_lt. rewrite Hfield.
  destruct (sorted _ _) as [r|e] eqn:E; [| by exists e].
  exfalso.
  apply (sort_from_good AcceptElement.__lt__ (fun y => ~ malformed y)) in E.
  - simpl in E. rewrite Forall_forall in E. by apply (E x).
  - intros a b bb. unfold AcceptElement.__lt__, AcceptElement.qvalue, malformed.
    destruct (Float.parse (AcceptElement.q_text a)); [| done].
    destruct (Float.parse (AcceptElement.q_text b)); done.
  - simpl. lia.
  - simpl. unfold parse_elements. by rewrite length_map.
Qed.

End HeaderElementsRaise.

(** * Quality values *)

(** Claim C1.  When the [q] parameter of an element does not convert to a
    number, reading [qvalue] raises the 400 error whose message holds the
    rendering of the element; a quality is returned only when the text of
    the parameter converts to it.  [header_elements("Accept", "a;q=abc")]
    gives one element, rendered [a;q=abc], whose quality raises that error.
    Without a [q] parameter the quality is 1.0. *)
Theorem qvalue_malformed_is_error :
  (forall (self : HeaderElement) (q : param),
     dict_get "q" (params self) = Some q ->
     Float.parse (AcceptElement.unwrap q) = None ->
     AcceptElement.qvalue self
     = Raise (HTTPError 400 ("Malformed HTTP header: `" +:+
                             HeaderElement.str self +:+ "`")))
  /\ (forall (self : HeaderElement) (q : param) (f : Float.float),
        dict_get "q" (params self) = Some q ->
        AcceptElement.qvalue self = Ok f ->
        Float.parse (AcceptElement.unwrap q) = Some f)
  /\ (exists e,
        header_elements "Accept" (Some "a;q=abc") = Ok [e]
        /\ HeaderElement.str e = "a;q=abc"
        /\ AcceptElement.qvalue e
           = Raise (HTTPError 400 "Malformed HTTP header: `a;q=abc`"))
  /\ (forall self : HeaderElement,
        dict_get "q" (params self) = None ->
        AcceptElement.qvalue self = Ok Float.one).
Proof.
  split_and!.
  - intros self q Hq Hbad. unfold AcceptElement.qvalue, AcceptElement.q_text.
    rewrite Hq. simpl. by rewrite Hbad.
  - intros self q f Hq. unfold AcceptElement.qvalue, AcceptElement.q_text.
    rewrite Hq. simpl. destruct (Float.parse _); [| done]. by intros [= ->].
  - by eexists.
  - intros self Hq. unfold AcceptElement.qvalue, AcceptElement.q_text.
    by rewrite Hq.
Qed.

(** The second element has the [q] text U+001C followed by [1]: [strip]
    would remove the control character, [float] does not skip it. *)
Lemma qvalue_malformed_is_error_witness :
  AcceptElement.qvalue (mkHeaderElement "text/html" [("level", PStr "1"); ("q", PStr "high")])
  = Raise (HTTPError 400 "Malformed HTTP header: `text/html;level=1;q=high`")
  /\ AcceptElement.qvalue (mkHeaderElement "a" [("q", PStr (String "028" "1"))])
     = Raise (HTTPError 400 ("Malformed HTTP header: `a;q=" +:+
                             String "028" "1" +:+ "`")).
Proof.
  split.
  - apply (proj1 qvalue_malformed_is_error
             (mkHeaderElement "text/html" [("level", PStr "1"); ("q", PStr "high")])
             (PStr "high"));
      reflexivity.
  - apply (proj1 qvalue_malformed_is_error
             (mkHeaderElement "a" [("q", PStr (String "028" "1"))])
             (PStr (String "028" "1")));
      reflexivity.
Defined.

(** * The order of the returned elements *)

(** Claim C5, as the code has it.  For an Accept-family field and a non-empty
    value whose elements all have a quality that is a number, [header_elements]
    returns the parsed elements, most preferred first: by descending quality,
    and among equal qualities by descending rendering.  The example of the
    specification comes out as text/plain, text/html, text/*.  When the value
    has two elements or more and the [q] of one of them does not convert, the
    call raises instead: the 400 error of an element whose [q] does not
    convert. *)
Theorem header_elements_most_preferred_first :
  (forall fieldname fieldvalue : string,
     is_accept_field fieldname = true -> nonempty fieldvalue = true ->
     Forall has_quality (parse_elements fieldname fieldvalue) ->
     exists l, header_elements fieldname (Some fieldvalue) = Ok l
               /\ l ≡ₚ parse_elements fieldname fieldvalue
               /\ StronglySorted preferred l)
  /\ header_elements "Accept"
       (Some "text/html;q=0.5, text/plain;q=0.9, text/*;q=0.1")
     = Ok [mkHeaderElement "text/plain" [("q", PElem "0.9" [])];
           mkHeaderElement "text/html" [("q", PElem "0.5" [])];
           mkHeaderElement "text/*" [("q", PElem "0.1" [])]]
  /\ (forall (fieldname fieldvalue : string) (x : HeaderElement),
        is_accept_field fieldname = true ->
        (2 <= length (RE_HEADER_SPLIT_split fieldvalue))%nat ->
        x ∈ parse_elements fieldname fieldvalue -> malformed x ->
        exists y, y ∈ parse_elements fieldname fieldvalue /\ malformed y
                  /\ header_elements fieldname (Some fieldvalue)
                     = Raise (HTTPError 400
                                ("Malformed HTTP header: `" +:+
                                 HeaderElement.str y +:+ "`"))).
Proof.
  split_and!; [| vm_compute; reflexivity |].
  2: { intros fieldname fieldvalue x Hfield Hlen Hx Hbad.
       destruct (header_elements_malformed _ _ _ Hfield Hlen Hx Hbad) as [e He].
       destruct (header_elements_raise_inv _ _ _ He)
         as (_ & v & y & [= <-] & Hy & Hm & ->).
       by exists y. }
  intros fieldname fieldvalue Hfield Hne Hq.
  destruct (sorted_reversed AcceptElement.__lt__ accept_ltb has_quality
              accept_lt_ok accept_ltb_asym accept_ltb_negtrans _ Hq)
    as (r & Hsorted & Hperm & HP & Hs).
  exists r. split_and!; [| done | by apply sorted_preferred].
  destruct fieldvalue as [|c fv]; [done |].
  unfold header_elements, element_lt. rewrite Hfield, Hsorted. simpl.
  by rewrite rev_involutive.
Qed.

Lemma header_elements_most_preferred_first_witness :
  exists l,
    header_elements "Accept-Encoding" (Some "gzip;q=0.5, identity;q=0.5, br") = Ok l
    /\ l ≡ₚ parse_elements "Accept-Encoding" "gzip;q=0.5, identity;q=0.5, br"
    /\ StronglySorted preferred l.
Proof.
  apply (proj1 header_elements_most_preferred_first); [reflexivity | reflexivity |].
  apply has_qualityb_all. vm_compute. reflexivity.
Defined.

(** Claim C5 fails as stated.  With two elements or more, an element whose
    [q] does not convert makes [header_elements] raise instead of returning;
    and a quality that is a NaN compares false with everything, so the list
    comes back with a lower quality before a higher one. *)
Lemma header_elements_not_always_ordered :
  header_elements "Accept" (Some "a;q=abc, b")
  = Raise (HTTPError 400 "Malformed HTTP header: `a;q=abc`")
  /\ exists x y z,
      header_elements "Accept" (Some "c;q=0.9, b;q=nan, a;q=0.1") = Ok [x; y; z]
      /\ value x = "a" /\ value z = "c"
      /\ AcceptElement.qvalue x = Ok (S754_finite false 7205759403792794 (-56))
      /\ AcceptElement.qvalue z = Ok (S754_finite false 8106479329266893 (-53))
      /\ ~ preferred x z
      /\ ~ StronglySorted preferred [x; y; z].
Proof.
  split; [vm_compute; reflexivity |].
  eexists _, _, _. split; [vm_compute; reflexivity |].
  assert (Hxz : ~ preferred
            (mkHeaderElement "a" [("q", PElem "0.1" [])])
            (mkHeaderElement "c" [("q", PElem "0.9" [])])).
  { intros (qx & qy & Hx & Hy & H). vm_compute in Hx, Hy.
    injection Hx as <-. injection Hy as <-.
    vm_compute in H. destruct H as [H | [H _]]; discriminate H. }
  split_and!;
    [reflexivity | reflexivity | vm_compute; reflexivity
    | vm_compute; reflexivity | exact Hxz |].
  intros Hs. apply StronglySorted_inv in Hs as [_ Hs].
  apply Forall_cons in Hs as [_ Hs]. apply Forall_cons in Hs as [Hs _]. done.
Qed.

(** * Case-insensitive keys *)

Section TitleFacts.

Ltac by_cases c := destruct c as [[] [] [] [] [] [] [] []]; vm_compute; done.

(** Lower-casing a code point below 256 changes neither what it is mapped to
    nor whether it is cased. *)
Lemma lower_code_to_lower c :
  Py.lower_code (Py.ord (Py.to_lower c)) = Py.lower_code (Py.ord c).
Proof. by_cases c. Qed.
Lemma title_codes_to_lower c :
  Py.title_codes (Py.ord (Py.to_lower c)) = Py.title_codes (Py.ord c).
Proof. by_cases c. Qed.
Lemma is_cased_to_lower c :
  Py.is_cased (Py.ord (Py.to_lower c)) = Py.is_cased (Py.ord c).
Proof. by_cases c. Qed.

(** What the mappings give is mapped to itself, and is cased when the code
    point was. *)
Lemma lower_code_fixed c :
  Py.lower_code (Py.lower_code (Py.ord c)) = Py.lower_code (Py.ord c).
Proof. by_cases c. Qed.
Lemma is_cased_lower_code c :
  Py.is_cased (Py.lower_code (Py.ord c)) = Py.is_cased (Py.ord c).
Proof. by_cases c. Qed.
Lemma title_codes_fixed c :
  Py.title_from false (Py.title_codes (Py.ord c)) = Py.title_codes (Py.ord c).
Proof. by_cases c. Qed.
Lemma is_cased_title_codes c :
  fold_left (fun _ d => Py.is_cased d) (Py.title_codes (Py.ord c)) false
  = Py.is_cased (Py.ord c).
Proof. by_cases c. Qed.

Lemma lower_code_not_E c : Py.lower_code (Py.ord c) <> 69.
Proof. by_cases c. Qed.
Lemma title_codes_T c :
  match Py.title_codes (Py.ord c) with
  | [t] => t = 84 -> Py.is_cased (Py.ord c) = true
  | t :: _ => t <> 84
  | [] => False
  end.
Proof. by_cases c. Qed.

Lemma title_from_lower (s : string) : forall b,
  Py.title_from b (Py.lower s) = Py.title_from b s.
Proof.
  induction s as [|c s IH]; intros b; simpl; [done |].
  rewrite is_cased_to_lower, IH.
  destruct b; by rewrite ?lower_code_to_lower, ?title_codes_to_lower.
Qed.

Lemma title_from_app (xs ys : text) : forall b,
  Py.title_from b (xs ++ ys)
  = Py.title_from b xs
    ++ Py.title_from (fold_left (fun _ d => Py.is_cased d) xs b) ys.
Proof.
  induction xs as [|c xs IH]; intros b; simpl; [done |].
  by rewrite IH, app_assoc.
Qed.

Lemma title_from_title_from (s : string) : forall b,
  Py.title_from b (Py.title_from b s) = Py.title_from b s.
Proof.
  induction s as [|c s IH]; intros b; simpl; [done |].
  rewrite title_from_app. destruct b.
  - simpl. by rewrite lower_code_fixed, is_cased_lower_code, IH.
  - by rewrite title_codes_fixed, is_cased_title_codes, IH.
Qed.

(** Title-casing a title-cased text changes nothing. *)
Lemma title_title (s : string) : Py.title (Py.title s) = Py.title s.
Proof. apply title_from_title_from. Qed.

(** No title-cased text is [TE]. *)
Lemma title_not_TE (s : string) : Py.title s <> Py.codes "TE".
Proof.
  destruct s as [|c1 s]; [done |]. unfold Py.title. simpl.
  pose proof (title_codes_T c1) as H1.
  destruct (Py.title_codes (Py.ord c1)) as [|t [|t' l]]; [done | |].
  - simpl. intros [= -> Hrest]. rewrite H1 in Hrest by done.
    destruct s as [|c2 s]; [done |]. simpl in Hrest.
    injection Hrest as H2 _. by apply lower_code_not_E in H2.
  - simpl. by intros [= -> _].
Qed.

End TitleFacts.

Section HeaderMapMore.
Context {V : Type}.
Local Abbreviation tk := CaseInsensitiveDict.transform_key.


(** X2.  Writing under one key leaves every entry with another title-cased
    key as it was: reading it gives what it gave before, an error included. *)
Theorem headermap_setitem_other (m : gmap text V) (k k' : string) (v : V) :
  tk k' <> tk k ->
  HeaderMap.getitem (HeaderMap.setitem m k v) k' = HeaderMap.getitem m k'
  /\ get tk (HeaderMap.setitem m k v) k' = get tk m k'.
Proof.
  intros Hne.
  unfold HeaderMap.getitem, HeaderMap.setitem, __getitem__, __setitem__, get.
  by rewrite lookup_insert_ne.
Qed.


End HeaderMapMore.


Lemma headermap_setitem_other_witness :
  HeaderMap.getitem
    (HeaderMap.setitem (HeaderMap.setitem (∅ : gmap text string) "Host" "a")
       "accept" "b")
    "host"
  = HeaderMap.getitem (HeaderMap.setitem (∅ : gmap text string) "Host" "a") "host".
Proof.
  apply (headermap_setitem_other
           (HeaderMap.setitem ∅ "Host" "a") "accept" "host" "b").
  vm_compute. discriminate.
Defined.


Section HeaderMapAccess.
Context {V : Type}.
Local Abbreviation tk := CaseInsensitiveDict.transform_key.

(** X4.  Storing a value under a key that names no entry and popping it
    under any spelling of the key gives the value back and the map as it
    was. *)
Theorem headermap_pop_setitem (m : gmap text V) (k k' : string) (v : V)
  (d : option V) :
  tk k' = tk k -> m !! tk k = None ->
  pop tk (HeaderMap.setitem m k v) k' d = Ok (v, m).
Proof.
  intros Hk Hm. unfold pop, HeaderMap.setitem, __setitem__.
  rewrite Hk, lookup_insert_eq. by rewrite delete_insert_id.
Qed.

(** X5.  A key that names no entry: [in] is false and [get] gives nothing;
    reading it, deleting it and popping it without a default raise a
    [KeyError] that carries the title-cased key; popping with a default gives
    the default, and [setdefault] stores the default.  None of the failing
    calls changes the map. *)
Theorem headermap_missing_key (m : gmap text V) (k : string) (x : V) :
  m !! tk k = None ->
  __contains__ tk m k = false
  /\ get tk m k = None
  /\ HeaderMap.getitem m k = Raise (KeyError (tk k))
  /\ __delitem__ tk m k = Raise (KeyError (tk k))
  /\ pop tk m k None = Raise (KeyError (tk k))
  /\ pop tk m k (Some x) = Ok (x, m)
  /\ setdefault tk m k x = (x, HeaderMap.setitem m k x)
  /\ HeaderMap.getitem (setdefault tk m k x).2 k = Ok x.
Proof.
  intros Hm.
  unfold __contains__, get, HeaderMap.getitem, __getitem__, __delitem__,
    pop, setdefault, HeaderMap.setitem, __setitem__.
  rewrite Hm. simpl. rewrite lookup_insert_eq. split_and!; try done.
  all: apply bool_decide_eq_false; by intros [? ?].
Qed.


(** X7.  The constructor stores every given key: each one is contained in
    the map it builds, under any spelling, and the map has at most as many
    entries as items were given. *)
Theorem init_contains_keys (items : list (string * V)) (k : string) (v : V) :
  (k, v) ∈ items ->
  __contains__ tk (__init__ tk items) k = true
  /\ (size (__init__ tk items) <= length items)%nat.
Proof.
  intros Hin. unfold __init__.
  assert (Hkeys : forall (l : list (string * V)) d,
            (exists w, (k, w) ∈ l) \/ is_Some (dict_get k d) ->
            is_Some (dict_get k
                       (fold_left (fun d0 '(k0, v0) => dict_set k0 v0 d0) l d))).
  { induction l as [|[k0 v0] l IH]; intros d [[w Hw] | Hd]; simpl.
    - by apply elem_of_nil in Hw.
    - done.
    - apply IH. apply elem_of_cons in Hw as [[= <- <-] | Hw]; [| by eauto].
      right. clear. induction d as [|[k1 v1] d IH]; simpl.
      + by rewrite String.eqb_refl.
      + destruct (String.eqb k1 k) eqn:E; simpl; rewrite E; [done | exact IH].
    - apply IH. right. clear -Hd. induction d as [|[k1 v1] d IH]; simpl in *.
      + by destruct Hd.
      + destruct (String.eqb k1 k0) eqn:E0; simpl;
          destruct (String.eqb k1 k) eqn:E; try done. by apply IH. }
  assert (Hlen : forall (l : list (string * V)) d,
            (length (fold_left (fun d0 '(k0, v0) => dict_set k0 v0 d0) l d)
             <= length d + length l)%nat).
  { induction l as [|[k0 v0] l IH]; intros d; simpl; [lia |].
    etrans; [apply IH |].
    assert (length (dict_set k0 v0 d) <= S (length d))%nat; [| lia].
    clear. induction d as [|[k1 v1] d IH]; simpl; [done |].
    destruct (String.eqb k1 k0); simpl; lia. }
  specialize (Hkeys items [] (or_introl (ex_intro _ v Hin))).
  specialize (Hlen items []).
  revert Hkeys Hlen.
  generalize (fold_left (fun d0 '(k0, v0) => dict_set k0 v0 d0) items []).
  intros d Hk Hlen. simpl in Hlen.
  assert (Hfold : forall (l : list (string * V)) (m0 : gmap text V),
            (is_Some (dict_get k l) \/ is_Some (m0 !! tk k) ->
             is_Some (fold_left (fun self '(k0, v0) =>
                                   __setitem__ tk self (k0 : string) v0)
                        l m0 !! tk k))
            /\ (size (fold_left (fun self '(k0, v0) =>
                                   __setitem__ tk self (k0 : string) v0)
                        l m0) <= size m0 + length l)%nat).
  { induction l as [|[k0 v0] l IH]; intros m0; simpl.
    - split; [| lia]. intros [[? ?] | ?]; done.
    - destruct (IH (__setitem__ tk m0 k0 v0)) as [IH1 IH2]. split.
      + intros Hor. apply IH1. unfold __setitem__.
        destruct (String.eqb_spec k0 k) as [-> | Hne].
        * right. by rewrite lookup_insert_eq.
        * destruct Hor as [? | Hm0]; [by left | right].
          destruct (decide (tk k0 = tk k)) as [-> | ?];
            [by rewrite lookup_insert_eq | by rewrite lookup_insert_ne].
      + etrans; [apply IH2 |]. unfold __setitem__.
        rewrite map_size_insert. destruct (m0 !! tk k0); simpl; lia. }
  destruct (Hfold d ∅) as [H1 H2]. split.
  - unfold __contains__. apply bool_decide_eq_true. apply H1. by left.
  - rewrite map_size_empty in H2. lia.
Qed.

End HeaderMapAccess.

Lemma headermap_pop_setitem_witness :
  pop CaseInsensitiveDict.transform_key
    (HeaderMap.setitem (∅ : gmap text string) "x-trace" "on") "X-TRACE" None
  = Ok ("on", ∅).
Proof.
  apply (headermap_pop_setitem ∅ "x-trace" "X-TRACE" "on" None); reflexivity.
Defined.

Lemma headermap_missing_key_witness :
  HeaderMap.getitem (∅ : gmap text string) "host" = Raise (KeyError "Host").
Proof.
  apply (headermap_missing_key (∅ : gmap text string) "host" "x"). reflexivity.
Defined.


Lemma init_contains_keys_witness :
  __contains__ CaseInsensitiveDict.transform_key
    (__init__ CaseInsensitiveDict.transform_key
       [("content-type", "a"); ("HOST", "b"); ("Content-Type", "c")])
    "HOST" = true.
Proof.
  apply (init_contains_keys
           [("content-type", "a"); ("HOST", "b"); ("Content-Type", "c")]
           "HOST" "b").
  apply elem_of_cons. right. apply elem_of_cons. left. reflexivity.
Defined.

Lemma strongly_sorted_weaken {A} (R S : A -> A -> Prop) (l : list A) :
  (forall x y, R x y -> S x y) -> StronglySorted R l -> StronglySorted S l.
Proof.
  intros HRS. induction 1 as [|x l Hs IH Hx]; constructor; [done |].
  eapply Forall_impl; [exact Hx | auto].
Qed.

(** * More on [header_elements] *)

Section HeaderElementsMore.

(** X8.  Whenever [header_elements] returns, it returns the parsed elements
    of the value, each one exactly once, in some order: one element for each
    segment of the value.  An absent or empty value gives the empty list. *)
Theorem header_elements_permutation (fieldname fieldvalue : string)
  (l : list HeaderElement) :
  nonempty fieldvalue = true ->
  header_elements fieldname (Some fieldvalue) = Ok l ->
  l ≡ₚ parse_elements fieldname fieldvalue
  /\ length l = length (RE_HEADER_SPLIT_split fieldvalue)
  /\ header_elements fieldname None = Ok []
  /\ header_elements fieldname (Some EmptyString) = Ok [].
Proof.
  intros Hne H. destruct fieldvalue as [|c fv]; [done |].
  rewrite header_elements_unfold in H.
  destruct (sorted _ _) as [r|] eqn:E; [| done]. injection H as <-.
  apply sort_from_perm in E. simpl in E.
  assert (Hperm : rev r ≡ₚ parse_elements fieldname (String c fv)).
  { by rewrite <- Permutation_rev. }
  split_and!; [done | | done | done].
  rewrite Hperm. unfold parse_elements. by rewrite length_map.
Qed.

(** X9.  [header_elements] raises only for an Accept-family field, and only
    the 400 error built from the rendering of one of the parsed elements
    whose [q] does not convert. *)
Theorem header_elements_raises_only_malformed (fieldname : string)
  (fieldvalue : option string) (e : exn) :
  header_elements fieldname fieldvalue = Raise e ->
  is_accept_field fieldname = true
  /\ exists v x, fieldvalue = Some v
                 /\ x ∈ parse_elements fieldname v
                 /\ malformed x /\ e = malformed_error x.
Proof.
  destruct fieldvalue as [[|c fv]|]; try done.
  rewrite header_elements_unfold.
  destruct (sorted _ _) as [r|e'] eqn:E; [done |]. intros [= ->].
  apply sort_from_raise in E as (x & y & Hx & Hy & Hlt). simpl in Hx, Hy.
  unfold element_lt in Hlt.
  destruct (is_accept_field fieldname); [| done]. split; [done |].
  apply accept_lt_raise in Hlt as [[Hm ->] | [Hm ->]]; eauto 10.
Qed.

(** X10.  For a field outside the Accept family [header_elements] never
    raises: it returns the parsed elements ordered by descending value. *)
Theorem header_elements_plain_sorted (fieldname fieldvalue : string) :
  is_accept_field fieldname = false -> nonempty fieldvalue = true ->
  exists l, header_elements fieldname (Some fieldvalue) = Ok l
            /\ l ≡ₚ parse_elements fieldname fieldvalue
            /\ StronglySorted (fun x y => String.le (value y) (value x)) l.
Proof.
  intros Hfield Hne.
  destruct (sorted_reversed HeaderElement.__lt__
              (fun x y => Py.str_lt (value x) (value y)) (fun _ => True))
    with (l := parse_elements fieldname fieldvalue)
    as (r & Hsorted & Hperm & _ & Hs).
  - done.
  - intros x y _ _. apply str_lt_asym.
  - intros x y z _ _ _. apply str_lt_negtrans.
  - by apply Forall_forall.
  - exists r. destruct fieldvalue as [|c fv]; [done |].
    rewrite header_elements_unfold. unfold element_lt.
    rewrite Hfield, Hsorted, rev_involutive. split_and!; [done | done |].
    eapply strongly_sorted_weaken; [| exact Hs]. intros x y. apply str_lt_le.
Qed.

End HeaderElementsMore.

Section HeaderElementsEdges.

Lemma header_split_no_comma fv :
  Py.count "," fv = 0%nat -> RE_HEADER_SPLIT_split fv = [fv].
Proof.
  induction fv as [|c fv IH]; simpl; [done |].
  destruct (Ascii.eqb c ","); [done |]. intros H. by rewrite IH.
Qed.

(** X11.  A value without a comma is one element, and one element is never
    compared: [header_elements] returns it as parsed, for any field, also
    when its [q] does not convert. *)
Theorem header_elements_single (fieldname fieldvalue : string) :
  Py.count "," fieldvalue = 0%nat -> nonempty fieldvalue = true ->
  header_elements fieldname (Some fieldvalue)
  = Ok [if is_accept_field fieldname then AcceptElement.from_str fieldvalue
        else HeaderElement.from_str fieldvalue].
Proof.
  intros Hc Hne. destruct fieldvalue as [|c fv]; [done |].
  rewrite header_elements_unfold. unfold parse_elements.
  by rewrite header_split_no_comma.
Qed.

(** X12.  For an Accept-family field with two elements or more, one element
    whose [q] does not convert makes [header_elements] raise. *)
Theorem header_elements_malformed_raises (fieldname fieldvalue : string)
  (x : HeaderElement) :
  is_accept_field fieldname = true ->
  (2 <= length (RE_HEADER_SPLIT_split fieldvalue))%nat ->
  x ∈ parse_elements fieldname fieldvalue -> malformed x ->
  raises (header_elements fieldname (Some fieldvalue)).
Proof.
  intros Hfield Hlen Hx Hbad.
  destruct fieldvalue as [|c fv]; [simpl in Hlen; lia |].
  rewrite header_elements_unfold. unfold element_lt. rewrite Hfield.
  destruct (sorted _ _) as [r|e] eqn:E; [| by exists e].
  exfalso.
  apply (sort_from_good AcceptElement.__lt__ (fun y => ~ malformed y)) in E.
  - simpl in E. rewrite Forall_forall in E. by apply (E x).
  - intros a b bb. unfold AcceptElement.__lt__, AcceptElement.qvalue, malformed.
    destruct (Float.parse (AcceptElement.q_text a)); [| done].
    destruct (Float.parse (AcceptElement.q_text b)); done.
  - simpl. lia.
  - simpl. unfold parse_elements. by rewrite length_map.
Qed.

(** X13.  On elements whose qualities are numbers, [AcceptElement.__lt__]
    is a strict weak order: nothing is less than itself, [x < y] excludes
    [y < x], and "not less than" is transitive.  Two elements neither of
    which is less than the other have equal qualities and the same
    rendering.  The element of lower quality is the lesser one, whatever the
    renderings. *)
Theorem accept_lt_strict_weak_order (x y z : HeaderElement) :
  has_quality x -> has_quality y -> has_quality z ->
  AcceptElement.__lt__ x x = Ok false
  /\ (AcceptElement.__lt__ x y = Ok true -> AcceptElement.__lt__ y x = Ok false)
  /\ (AcceptElement.__lt__ x y = Ok false -> AcceptElement.__lt__ y z = Ok false ->
      AcceptElement.__lt__ x z = Ok false)
  /\ (AcceptElement.__lt__ x y = Ok false -> AcceptElement.__lt__ y x = Ok false ->
      HeaderElement.str x = HeaderElement.str y
      /\ exists qx qy, AcceptElement.qvalue x = Ok qx
                       /\ AcceptElement.qvalue y = Ok qy
                       /\ Float.eqb qx qy = true)
  /\ (forall qx qy, AcceptElement.qvalue x = Ok qx -> AcceptElement.qvalue y = Ok qy ->
        Float.ltb qx qy = true -> AcceptElement.__lt__ x y = Ok true).
Proof.
  intros Hx Hy Hz. rewrite !accept_lt_ok by done. split_and!.
  - f_equal. destruct (accept_ltb x x) eqn:E; [| done].
    by rewrite (accept_ltb_asym x x Hx Hx E) in E.
  - intros [= H]. f_equal. by apply accept_ltb_asym.
  - intros [= H1] [= H2]. f_equal. by apply (accept_ltb_negtrans x y z).
  - intros [= H1] [= H2].
    destruct Hx as (qx & Ex & Nx), Hy as (qy & Ey & Ny).
    apply not_true_iff_false in H1, H2.
    rewrite (accept_ltb_spec x y qx qy) in H1 by done.
    rewrite (accept_ltb_spec y x qy qx) in H2 by done.
    assert (Heq : key_eq (float_key qx) (float_key qy)).
    { revert H1 H2. unfold key_lt, key_eq.
      destruct (float_key qx) as [[a1 a2] a3], (float_key qy) as [[b1 b2] b3].
      simpl. intros H1 H2.
      assert (~ (a1 < b1 \/ a1 = b1 /\ (a2 < b2 \/ a2 = b2 /\ a3 < b3))) by tauto.
      assert (~ (b1 < a1 \/ b1 = a1 /\ (b2 < a2 \/ b2 = a2 /\ b3 < a3))) by tauto.
      lia. }
    assert (Heq' : key_eq (float_key qy) (float_key qx))
      by (unfold key_eq in *; intuition congruence).
    split.
    + apply (anti_symm String.le); apply str_lt_le;
        apply not_true_iff_false; tauto.
    + exists qx, qy. split_and!; [done | done |]. by apply eqb_key.
  - intros qx qy Ex Ey Hlt. f_equal. unfold accept_ltb. rewrite Ex, Ey.
    assert (Float.eqb qx qy = false) as ->; [| done].
    unfold Float.ltb, SFltb, Float.eqb, SFeqb in *.
    by destruct (SFcompare qx qy) as [[]|].
Qed.

End HeaderElementsEdges.

Section PlainTokens.

Lemma find_end_none rest : forall s i,
  Py.count ";" rest = 0%nat -> Cgi.find_end s i rest = None.
Proof.
  induction rest as [|c rest IH]; intros s i; simpl; [done |].
  destruct (Ascii.eqb c ";"); [done |]. simpl. apply IH.
Qed.

Lemma append_empty s : s +:+ EmptyString = s.
Proof.
  induction s as [|c s IH]; [done |].
  change (String c (s +:+ EmptyString) = String c s). by rewrite IH.
Qed.

Lemma take_all s : Py.take (String.length s) s = s.
Proof. induction s as [|c s IH]; simpl; [done | by rewrite IH]. Qed.

Lemma drop_all s : Py.drop (String.length s) s = EmptyString.
Proof. induction s as [|c s IH]; simpl; [done | exact IH]. Qed.

Lemma parse_header_plain line :
  Py.count ";" line = 0%nat -> Cgi.parse_header line = (Py.strip line, []).
Proof.
  intros H. unfold Cgi.parse_header, Cgi._parseparam. simpl.
  rewrite find_end_none by done. simpl. rewrite take_all, drop_all.
  by destruct (String.length line).
Qed.

Lemma q_separator_match_head c r :
  Ascii.eqb c ";" = false -> q_separator_match (String c r) = None.
Proof. destruct c as [[] [] [] [] [] [] [] []]; done. Qed.

Lemma q_separator_split_plain s :
  Py.count ";" s = 0%nat -> q_separator_split s = [s].
Proof.
  induction s as [|c s IH]; [done |]. simpl Py.count.
  destruct (Ascii.eqb c ";") eqn:E; [done |]. intros H.
  change (q_separator_split (String c s)) with
    (match q_separator_match (String c s) with
     | Some r => [EmptyString; r]
     | None => match q_separator_split s with
               | h :: t => String c h :: t
               | [] => [String c s]
               end
     end).
  by rewrite q_separator_match_head, IH.
Qed.

(** X14.  A segment without a semicolon is a bare token: both parsers give
    the element whose value is the stripped segment, with no parameter; it
    renders as that value and its quality is 1.0. *)
Theorem from_str_plain_token (elementstr : string) :
  Py.count ";" elementstr = 0%nat ->
  AcceptElement.from_str elementstr = mkHeaderElement (Py.strip elementstr) []
  /\ HeaderElement.from_str elementstr = mkHeaderElement (Py.strip elementstr) []
  /\ HeaderElement.str (AcceptElement.from_str elementstr) = Py.strip elementstr
  /\ AcceptElement.qvalue (AcceptElement.from_str elementstr) = Ok Float.one.
Proof.
  intros H.
  assert (Hs : Py.count ";" (Py.strip elementstr) = 0%nat) by by apply count_strip.
  assert (Ha : AcceptElement.from_str elementstr
               = mkHeaderElement (Py.strip elementstr) []).
  { unfold AcceptElement.from_str, HeaderElement.parse.
    rewrite q_separator_split_plain by done.
    cbv beta zeta iota delta [hd tl].
    rewrite parse_header_plain by done. by rewrite strip_strip. }
  rewrite Ha. split_and!; [done | | |].
  - unfold HeaderElement.from_str, HeaderElement.parse.
    by rewrite parse_header_plain.
  - unfold HeaderElement.str. simpl. apply append_empty.
  - reflexivity.
Qed.

End PlainTokens.

Section HeaderMapElements.


End HeaderMapElements.

Lemma header_elements_permutation_witness :
  [mkHeaderElement "b" []; mkHeaderElement "a" [("x", PStr "1")]]
  ≡ₚ parse_elements "Allow" "a;x=1, b".
Proof.
  apply (header_elements_permutation "Allow" "a;x=1, b");
    [reflexivity | vm_compute; reflexivity].
Defined.

Lemma header_elements_raises_only_malformed_witness :
  is_accept_field "Accept-Language" = true
  /\ exists v x, Some "da;q=high, en" = Some v
                 /\ x ∈ parse_elements "Accept-Language" v
                 /\ malformed x
                 /\ HTTPError 400 "Malformed HTTP header: `da;q=high`"
                    = malformed_error x.
Proof.
  apply (header_elements_raises_only_malformed
           "Accept-Language" (Some "da;q=high, en")).
  vm_compute. reflexivity.
Defined.

Lemma header_elements_plain_sorted_witness :
  exists l, header_elements "Allow" (Some "GET, POST, HEAD") = Ok l
            /\ l ≡ₚ parse_elements "Allow" "GET, POST, HEAD"
            /\ StronglySorted (fun x y => String.le (value y) (value x)) l.
Proof.
  apply (header_elements_plain_sorted "Allow" "GET, POST, HEAD"); reflexivity.
Defined.

Lemma header_elements_single_witness :
  header_elements "Accept" (Some "text/html;q=soon")
  = Ok [mkHeaderElement "text/html" [("q", PElem "soon" [])]].
Proof.
  apply (header_elements_single "Accept" "text/html;q=soon"); reflexivity.
Defined.

Lemma header_elements_malformed_raises_witness :
  raises (header_elements "TE" (Some "trailers, deflate;q=x")).
Proof.
  apply (header_elements_malformed_raises "TE" "trailers, deflate;q=x"
           (mkHeaderElement "deflate" [("q", PElem "x" [])])).
  - reflexivity.
  - vm_compute. lia.
  - apply elem_of_cons. right. apply elem_of_cons. left. reflexivity.
  - reflexivity.
Defined.

Lemma accept_lt_strict_weak_order_witness :
  AcceptElement.__lt__ (mkHeaderElement "a" [("q", PStr "0.5")])
                       (mkHeaderElement "b" []) = Ok true.
Proof.
  assert (Hq : forall e, has_qualityb e = true -> has_quality e).
  { intros e He. unfold has_qualityb in He. unfold has_quality, is_number.
    destruct (AcceptElement.qvalue e) as [q|]; [| discriminate He].
    exists q. split; [reflexivity |]. destruct (Float.is_nan q);
      [discriminate He | reflexivity]. }
  assert (Ha : has_quality (mkHeaderElement "a" [("q", PStr "0.5")]))
    by (apply Hq; vm_compute; reflexivity).
  assert (Hb : has_quality (mkHeaderElement "b" []))
    by (apply Hq; vm_compute; reflexivity).
  destruct (accept_lt_strict_weak_order
              (mkHeaderElement "a" [("q", PStr "0.5")]) (mkHeaderElement "b" [])
              (mkHeaderElement "b" []) Ha Hb Hb) as (_ & _ & _ & _ & Hlower).
  apply (Hlower (S754_finite false 4503599627370496 (-53)) Float.one);
    vm_compute; reflexivity.
Defined.

Lemma from_str_plain_token_witness :
  AcceptElement.from_str "  gzip " = mkHeaderElement "gzip" [].
Proof. apply (from_str_plain_token "  gzip "). reflexivity. Defined.


(** * More on [valid_status] *)

Lemma cut_absent sep s : Py.count sep s = 0%nat -> Py.cut sep s = None.
Proof.
  induction s as [|c s IH]; simpl; [done |]; intros H.
  destruct (Ascii.eqb c sep); [discriminate | by rewrite IH].
Qed.

Section ValidStatusMore.
Variable responses : gmap Z (string * string).

Local Abbreviation entry n :=
  (default (EmptyString, EmptyString) (response_codes responses !! n)).

Lemma valid_status_in_range status n :
  numeric_code status = Some n -> 100 <= n <= 599 ->
  valid_status responses status
  = Ok (n, default (entry n).1 (status_parts status).2, (entry n).2).
Proof.
  intros Hn Hr. rewrite (valid_status_numeric _ _ _ Hn).
  destruct (Z.ltb_spec n 100), (Z.gtb_spec n 599); simpl; try lia.
  by destruct (entry n).
Qed.

(** X16.  A status text made of a code in 100..599, a space and a reason
    gives the code, the stripped reason and the description of the table;
    when the reason is blank, and for the code alone as text or as an
    integer, the reason is the one of the table (empty for a code the table
    does not know). *)
Theorem valid_status_reason (code_text reason_text : string) (n : Z) :
  Py.count " " code_text = 0%nat -> Py.int code_text = Ok n -> 100 <= n <= 599 ->
  valid_status responses (StatusStr (code_text +:+ " " +:+ reason_text))
  = Ok (n,
        if nonempty (Py.strip reason_text) then Py.strip reason_text
        else (entry n).1,
        (entry n).2)
  /\ valid_status responses (StatusStr code_text) = Ok (n, (entry n).1, (entry n).2)
  /\ valid_status responses (StatusInt n) = Ok (n, (entry n).1, (entry n).2).
Proof.
  intros Hsp Hint Hr. pose proof (int_nonempty _ _ Hint) as Hne.
  split_and!.
  - rewrite (valid_status_in_range _ n); [| | done].
    + f_equal. f_equal. f_equal. unfold status_parts.
      assert (status_is_false (StatusStr (code_text +:+ " " +:+ reason_text)) = false)
        as -> by by destruct code_text.
      unfold Py.partition.
      change (" " +:+ reason_text) with (String " " reason_text).
      rewrite cut_app by done. simpl. by destruct (nonempty (Py.strip reason_text)).
    + unfold numeric_code, code_part, status_parts.
      assert (status_is_false (StatusStr (code_text +:+ " " +:+ reason_text)) = false)
        as -> by by destruct code_text.
      unfold Py.partition.
      change (" " +:+ reason_text) with (String " " reason_text).
      rewrite cut_app by done. simpl. by rewrite Hint.
  - rewrite (valid_status_in_range _ n); [| | done].
    + unfold status_parts. destruct code_text as [|c s]; [done |].
      simpl status_is_false. cbv iota. unfold Py.partition.
      by rewrite cut_absent.
    + unfold numeric_code, code_part, status_parts.
      destruct code_text as [|c s]; [done |].
      simpl status_is_false. cbv iota. unfold Py.partition.
      rewrite cut_absent by done. simpl. by rewrite Hint.
  - rewrite (valid_status_in_range _ n); [| | done].
    + by destruct n.
    + unfold numeric_code, code_part. destruct n; try done; lia.
Qed.

(** X17.  An argument that is false stands for 200: no status, the integer
    0 and the empty text all give what 200 gives.  A text of digits that
    writes zero is not false, and raises as the code 0. *)
Theorem valid_status_false_argument (a : string) :
  is_digits a = true -> decimal a = 0 ->
  valid_status responses StatusNone = valid_status responses (StatusInt 200)
  /\ valid_status responses (StatusInt 0) = valid_status responses (StatusInt 200)
  /\ valid_status responses (StatusStr EmptyString)
     = valid_status responses (StatusInt 200)
  /\ valid_status responses (StatusInt 200) = Ok (200, (entry 200).1, (entry 200).2)
  /\ valid_status responses (StatusStr a)
     = Raise (ValueError
                "Illegal response status from server (0 is out of range).").
Proof.
  intros Ha H0. split_and!; try reflexivity.
  - by apply valid_status_in_range.
  - assert (Hn : numeric_code (StatusStr a) = Some 0).
    { unfold numeric_code, code_part, status_parts.
      pose proof (digits_nonempty _ Ha). destruct a as [|c s]; [done |].
      simpl status_is_false. cbv iota. unfold Py.partition.
      rewrite cut_absent by by apply digits_count. simpl.
      rewrite int_digits by done. by rewrite H0. }
    by rewrite (valid_status_numeric _ _ _ Hn).
Qed.


End ValidStatusMore.

Lemma valid_status_reason_witness :
  valid_status ∅ (StatusStr "404  Gone Missing ")
  = Ok (404, "Gone Missing", EmptyString).
Proof.
  assert (Hr : 100 <= 404 <= 599) by lia.
  destruct (valid_status_reason ∅ "404" " Gone Missing " 404 eq_refl eq_refl Hr)
    as [H _].
  exact H.
Defined.

Lemma valid_status_false_argument_witness :
  valid_status ∅ (StatusStr "000")
  = Raise (ValueError "Illegal response status from server (0 is out of range).").
Proof.
  destruct (valid_status_false_argument ∅ "000" eq_refl eq_refl)
    as (_ & _ & _ & _ & H).
  exact H.
Defined.


(** * More on query strings *)

Section QueryStringMore.
Variable unquote_plus : string -> result string.

(** X19.  A query string made of digits, a comma and digits is read as
    image-map coordinates: [x] is the first number and [y] the second,
    whatever the decoder and the handling of blank values. *)
Theorem parse_query_string_image_map (a b : string) (keep_blank_values : bool) :
  is_digits a = true -> is_digits b = true ->
  parse_query_string unquote_plus (a +:+ "," +:+ b) keep_blank_values
  = Ok (<["y" := QInt (decimal b)]> (<["x" := QInt (decimal a)]> ∅)).
Proof.
  intros Ha Hb. unfold parse_query_string.
  pose proof (image_map_prefix a b EmptyString Ha Hb) as Hm.
  rewrite append_empty in Hm. rewrite Hm.
  change ("," +:+ b) with (String "," b).
  rewrite split_app, split_none by by apply digits_count.
  simpl. by rewrite !int_digits.
Qed.

(** Without strict parsing, what the loop raises was raised by the decoder
    on one of the pieces it was handed. *)
Lemma parse_qs_loop_raise keep pairs : forall d e,
  parse_qs_loop unquote_plus keep false pairs d = Raise e ->
  exists piece, piece ∈ concat (map (pieces_of keep) pairs)
                /\ unquote_plus piece = Raise e.
Proof.
  induction pairs as [|nv rest IH]; intros d e; simpl; [done |].
  rewrite andb_true_r.
  assert (Hrest : forall d0,
    parse_qs_loop unquote_plus keep false rest d0 = Raise e ->
    exists piece, piece ∈ pieces_of keep nv ++ concat (map (pieces_of keep) rest)
                  /\ unquote_plus piece = Raise e).
  { intros d0 H. destruct (IH _ _ H) as (piece & Hin & Hp).
    exists piece. split; [apply elem_of_app; by right | done]. }
  destruct (nonempty nv) eqn:Hne; simpl; [| by apply Hrest].
  assert (Hstore : forall n v,
    (nonempty v || keep = true -> pieces_of keep nv = [n; v]) ->
    (if nonempty v || keep
     then name ← unquote_plus n; value ← unquote_plus v;
          parse_qs_loop unquote_plus keep false rest (qs_add name value d)
     else parse_qs_loop unquote_plus keep false rest d) = Raise e ->
    exists piece, piece ∈ pieces_of keep nv ++ concat (map (pieces_of keep) rest)
                  /\ unquote_plus piece = Raise e).
  { intros n v Hp. destruct (nonempty v || keep); [| by apply Hrest].
    rewrite Hp by done.
    destruct (unquote_plus n) as [name|e1] eqn:En; simpl.
    2: { intros [= ->]. exists n. split; [| done].
         rewrite ?elem_of_app, ?elem_of_cons. auto. }
    destruct (unquote_plus v) as [value|e2] eqn:Ev; simpl.
    - intros H. destruct (IH _ _ H) as (piece & Hin & Hpiece).
      exists piece. split; [| done].
      rewrite ?elem_of_app, ?elem_of_cons. auto.
    - intros [= ->]. exists v. split; [| done].
      rewrite ?elem_of_app, ?elem_of_cons. auto. }
  destruct (Py.cut "=" nv) as [[n v]|] eqn:Hcut.
  - apply Hstore. intros Hv. unfold pieces_of. by rewrite Hcut, Hv.
  - destruct keep eqn:Hk.
    + apply (Hstore nv EmptyString). intros _. unfold pieces_of.
      by rewrite Hcut, Hne.
    + by apply Hrest.
Qed.

(** What the loop returns, it returns after the decoder has accepted every
    piece. *)
Lemma parse_qs_loop_accepts keep pairs : forall d d',
  parse_qs_loop unquote_plus keep false pairs d = Ok d' ->
  Forall (fun piece => exists s, unquote_plus piece = Ok s)
         (concat (map (pieces_of keep) pairs)).
Proof.
  induction pairs as [|nv rest IH]; intros d d'; simpl; [done |].
  rewrite andb_true_r.
  assert (Hskip : forall d0,
    pieces_of keep nv = [] ->
    parse_qs_loop unquote_plus keep false rest d0 = Ok d' ->
    Forall (fun piece => exists s, unquote_plus piece = Ok s)
           (pieces_of keep nv ++ concat (map (pieces_of keep) rest))).
  { intros d0 -> H. by apply (IH d0 d'). }
  assert (Hstore : forall n v,
    (nonempty v || keep = true -> pieces_of keep nv = [n; v]) ->
    (nonempty v || keep = false -> pieces_of keep nv = []) ->
    (if nonempty v || keep
     then name ← unquote_plus n; value ← unquote_plus v;
          parse_qs_loop unquote_plus keep false rest (qs_add name value d)
     else parse_qs_loop unquote_plus keep false rest d) = Ok d' ->
    Forall (fun piece => exists s, unquote_plus piece = Ok s)
           (pieces_of keep nv ++ concat (map (pieces_of keep) rest))).
  { intros n v Hp Hq. destruct (nonempty v || keep);
      [| apply Hskip; by apply Hq].
    rewrite Hp by done.
    destruct (unquote_plus n) as [name|] eqn:En; simpl; [| done].
    destruct (unquote_plus v) as [value|] eqn:Ev; simpl; [| done].
    intros H. apply IH in H.
    apply Forall_cons. split; [by eexists |].
    apply Forall_cons. split; [by eexists | done]. }
  destruct (nonempty nv) eqn:Hne; simpl.
  - destruct (Py.cut "=" nv) as [[n v]|] eqn:Hcut.
    + apply Hstore; intros Hv; unfold pieces_of; by rewrite Hcut, Hv.
    + destruct keep eqn:Hk.
      * apply (Hstore nv EmptyString); [| done]. intros _. unfold pieces_of.
        by rewrite Hcut, Hne.
      * apply Hskip. unfold pieces_of. by rewrite Hcut, andb_false_r.
  - apply Hskip. by destruct nv.
Qed.

(** X20.  Outside the image-map form, the lenient parse raises nothing of
    its own: it raises exactly when the decoder rejects one of the pieces it
    is handed, the names and values of the fields that are kept, and what it
    raises is what the decoder raised on one of these pieces. *)
Theorem parse_query_string_raises_only_decoder (query_string : string)
  (keep_blank_values : bool) :
  image_map_pattern_match query_string = false ->
  (forall e,
     parse_query_string unquote_plus query_string keep_blank_values = Raise e ->
     exists piece, piece ∈ query_pieces keep_blank_values query_string
                   /\ unquote_plus piece = Raise e)
  /\ (raises (parse_query_string unquote_plus query_string keep_blank_values)
      <-> Exists (fun piece => raises (unquote_plus piece))
                 (query_pieces keep_blank_values query_string)).
Proof.
  intros Hm. unfold parse_query_string, _parse_qs. rewrite Hm.
  fold (query_pairs query_string). unfold query_pieces.
  destruct (parse_qs_loop _ _ _ _ _) as [d|e'] eqn:E.
  - split; [done |]. split; [by intros [e He] |].
    intros Hex. apply parse_qs_loop_accepts in E.
    apply Exists_exists in Hex as (piece & Hin & [e He]).
    rewrite Forall_forall in E. destruct (E _ Hin) as [s' Hs]. congruence.
  - destruct (parse_qs_loop_raise _ _ _ _ E) as (piece & Hin & Hp).
    split; [intros e [= <-]; by exists piece |].
    split; [| intros _; by eexists].
    intros _. apply Exists_exists. exists piece. split; [done | by eexists].
Qed.

(** X21.  Under strict parsing the first field without an equals sign
    raises a [ValueError] that names it, when the decoder accepts the fields
    before it. *)
Theorem parse_qs_strict_raises (qs field : string) (pre post : list string)
  (keep_blank_values : bool) :
  query_pairs qs = pre ++ field :: post ->
  Forall (fun p => exists n v n' v', Py.cut "=" p = Some (n, v)
                     /\ unquote_plus n = Ok n' /\ unquote_plus v = Ok v') pre ->
  Py.count "=" field = 0%nat ->
  _parse_qs unquote_plus qs keep_blank_values true
  = Raise (ValueError ("bad query field: " +:+ Py.repr field)).
Proof.
  intros Hpairs Hpre Hfield. unfold _parse_qs. fold (query_pairs qs).
  rewrite Hpairs. clear Hpairs. generalize (∅ : gmap string qs_value).
  induction pre as [|p pre IH]; intros d; simpl; rewrite andb_false_r.
  - by rewrite cut_absent.
  - apply Forall_cons in Hpre as [(n & v & n' & v' & Hcut & Hn & Hv) Hpre].
    rewrite Hcut, Hn, Hv. simpl.
    destruct (nonempty v || keep_blank_values); by apply IH.
Qed.

End QueryStringMore.

Section QueryStringFields.
Variable unquote_plus : string -> result string.
Local Abbreviation decode := (decoded unquote_plus).

Lemma values_of_app name fs gs :
  values_of name (fs ++ gs) = values_of name fs ++ values_of name gs.
Proof. unfold values_of. by rewrite List.filter_app, map_app. Qed.

Lemma pack_snoc vs v :
  pack (vs ++ [v])
  = match pack vs with
    | Some (QList l) => Some (QList (l ++ [v]))
    | Some (QStr v0) => Some (QList [v0; v])
    | None => Some (QStr v)
    end.
Proof. by destruct vs as [|v1 [|v2 vs]]. Qed.

Lemma qs_add_pack name value (d : gmap string qs_value)
  (acc : string -> list string) :
  (forall k, d !! k = pack (acc k)) ->
  forall k, qs_add name value d !! k
            = pack (acc k ++ values_of k [(name, value)]).
Proof.
  intros Hd k. unfold values_of. simpl.
  destruct (String.eqb_spec name k) as [-> | Hne]; simpl.
  - rewrite pack_snoc, <- Hd. unfold qs_add.
    destruct (d !! k) as [[v0|l]|]; by rewrite lookup_insert_eq.
  - rewrite app_nil_r, <- Hd. unfold qs_add.
    destruct (d !! name) as [[v0|l]|]; by rewrite lookup_insert_ne.
Qed.

Lemma parse_qs_loop_fields keep pairs : forall (d : gmap string qs_value) acc,
  Forall (fun piece => exists s, unquote_plus piece = Ok s)
         (concat (map (pieces_of keep) pairs)) ->
  (forall k, d !! k = pack (acc k)) ->
  exists d', parse_qs_loop unquote_plus keep false pairs d = Ok d'
             /\ forall k, d' !! k
                  = pack (acc k ++ values_of k
                                     (concat (map (field_of decode keep) pairs))).
Proof.
  induction pairs as [|nv rest IH]; intros d acc Hok Hd; simpl.
  - exists d. split; [done |]. intros k. by rewrite app_nil_r.
  - rewrite andb_true_r. simpl in Hok. apply Forall_app in Hok as [Hnv Hok].
    assert (Hskip : field_of decode keep nv = [] ->
              exists d', parse_qs_loop unquote_plus keep false rest d = Ok d'
                /\ forall k, d' !! k
                     = pack (acc k ++ values_of k
                               (field_of decode keep nv ++
                                concat (map (field_of decode keep) rest)))).
    { intros ->. by apply IH. }
    assert (Hstore : forall n v,
              pieces_of keep nv = [n; v] ->
              field_of decode keep nv = [(decode n, decode v)] ->
              exists d',
                (name ← unquote_plus n; value ← unquote_plus v;
                 parse_qs_loop unquote_plus keep false rest
                   (qs_add name value d)) = Ok d'
                /\ forall k, d' !! k
                     = pack (acc k ++ values_of k
                               (field_of decode keep nv ++
                                concat (map (field_of decode keep) rest)))).
    { intros n v Hp Hf. rewrite Hp in Hnv.
      apply Forall_cons in Hnv as [[n' Hn] Hnv].
      apply Forall_cons in Hnv as [[v' Hv] _].
      assert (Dn : decode n = n') by (unfold decoded; by rewrite Hn).
      assert (Dv : decode v = v') by (unfold decoded; by rewrite Hv).
      rewrite Hn, Hv. simpl.
      destruct (IH _ (fun k => acc k ++ values_of k [(n', v')]) Hok
                  (qs_add_pack _ _ _ _ Hd)) as (d' & E & Hd').
      exists d'. split; [done |]. intros k.
      by rewrite Hf, Dn, Dv, Hd', values_of_app, app_assoc. }
    destruct (nonempty nv) eqn:Hne; simpl.
    + destruct (Py.cut "=" nv) as [[n v]|] eqn:Hcut.
      * destruct (nonempty v || keep) eqn:Hv.
        -- apply Hstore; [unfold pieces_of | unfold field_of];
             by rewrite Hcut, Hv.
        -- apply Hskip. unfold field_of. by rewrite Hcut, Hv.
      * destruct keep.
        -- apply Hstore; [unfold pieces_of | unfold field_of];
             by rewrite Hcut, Hne.
        -- apply Hskip. unfold field_of. by rewrite Hcut, andb_false_r.
    + destruct nv; [| done]. by apply Hskip.
Qed.

(** X22.  When the decoder accepts the pieces of this query string that it
    is handed, the lenient parse returns the dictionary that holds, for each
    decoded name, the decoded values of its fields in the order they appear:
    the text of the value when the name occurs once, the list of values when
    it occurs more often, and nothing for a name that does not occur.  A
    field without an equals sign counts with an empty value when blank values
    are kept; fields with a blank value are left out otherwise. *)
Theorem parse_qs_collects_fields (qs : string) (keep_blank_values : bool) :
  Forall (fun piece => exists s, unquote_plus piece = Ok s)
         (query_pieces keep_blank_values qs) ->
  exists d,
    _parse_qs unquote_plus qs keep_blank_values false = Ok d
    /\ forall name,
        d !! name
        = pack (values_of name
                  (concat (map (field_of decode keep_blank_values)
                             (query_pairs qs)))).
Proof.
  intros Hok. unfold _parse_qs. fold (query_pairs qs).
  destruct (parse_qs_loop_fields keep_blank_values (query_pairs qs) ∅
              (fun _ => []) Hok) as (d & E & Hd); [done |].
  by exists d.
Qed.

End QueryStringFields.

Lemma parse_query_string_image_map_witness :
  parse_query_string Ok "120,45" true
  = Ok (<["y" := QInt 45]> (<["x" := QInt 120]> ∅)).
Proof.
  apply (parse_query_string_image_map Ok "120" "45" true); reflexivity.
Defined.

Lemma parse_query_string_raises_only_decoder_witness :
  let unquote_plus (s : string) : result string :=
    if String.eqb s "%ff" then Raise (ValueError "utf-8") else Ok s in
  exists piece, piece ∈ query_pieces true "a=1&b=%ff"
                /\ unquote_plus piece = Raise (ValueError "utf-8").
Proof.
  intros unquote_plus.
  apply (proj1 (parse_query_string_raises_only_decoder unquote_plus
                  "a=1&b=%ff" true eq_refl) (ValueError "utf-8")).
  vm_compute. reflexivity.
Defined.

Lemma parse_qs_strict_raises_witness :
  _parse_qs Ok "a=1&flag&b=2" true true
  = Raise (ValueError "bad query field: 'flag'").
Proof.
  apply (parse_qs_strict_raises Ok "a=1&flag&b=2" "flag" ["a=1"] ["b=2"] true).
  - reflexivity.
  - apply Forall_cons. split; [| by apply Forall_nil].
    exists "a", "1", "a", "1". split; [reflexivity |]. split; reflexivity.
  - reflexivity.
Defined.

Lemma parse_qs_collects_fields_witness :
  let unquote_plus (s : string) : result string :=
    if String.eqb s "%ff" then Raise (ValueError "utf-8") else Ok s in
  exists d,
    _parse_qs unquote_plus "a=1&b&a=2;a=3&c=" true false = Ok d
    /\ d !! "a" = Some (QList ["1"; "2"; "3"])
    /\ d !! "b" = Some (QStr EmptyString)
    /\ d !! "c" = Some (QStr EmptyString)
    /\ d !! "d" = None.
Proof.
  intros unquote_plus.
  assert (Hok : Forall (fun piece => exists s, unquote_plus piece = Ok s)
                  (query_pieces true "a=1&b&a=2;a=3&c=")).
  { apply Forall_forall. intros piece Hin. exists piece.
    vm_compute in Hin. repeat (apply elem_of_cons in Hin as [-> | Hin];
      [reflexivity |]). by apply elem_of_nil in Hin. }
  destruct (parse_qs_collects_fields unquote_plus "a=1&b&a=2;a=3&c=" true Hok)
    as (d & E & Hd).
  exists d. split; [exact E |].
  split_and!; rewrite Hd; vm_compute; reflexivity.
Defined.

(** * [urljoin] *)

Section UrlJoin.

Lemma squeeze_cons c x :
  squeeze (String c x)
  = if Ascii.eqb c "/" && head_is_slash x then squeeze x
    else String c (squeeze x).
Proof. destruct x; [by rewrite andb_false_r | done]. Qed.

Lemma replace2_cons c x :
  Py.replace2 "/" "/" "/" (String c x)
  = if Ascii.eqb c "/" && head_is_slash x
    then String "/" (Py.replace2 "/" "/" "/" (Py.drop 1 x))
    else String c (Py.replace2 "/" "/" "/" x).
Proof. destruct x; [by rewrite andb_false_r | done]. Qed.

Lemma contains2_cons c x :
  contains2 "/" "/" (String c x)
  = (Ascii.eqb c "/" && head_is_slash x) || contains2 "/" "/" x.
Proof. destruct x; [by rewrite andb_false_r | done]. Qed.

Lemma head_replace2 s :
  head_is_slash (Py.replace2 "/" "/" "/" s) = head_is_slash s.
Proof.
  destruct s as [|c x]; [done |]. rewrite replace2_cons.
  destruct (Ascii.eqb_spec c "/") as [-> | Hc]; simpl;
    [by destruct (head_is_slash x) | by destruct (Ascii.eqb_spec c "/")].
Qed.

Lemma head_squeeze s : head_is_slash (squeeze s) = head_is_slash s.
Proof.
  induction s as [|c x IH]; [done |]. rewrite squeeze_cons.
  destruct (Ascii.eqb c "/" && head_is_slash x) eqn:E; [| done].
  apply andb_prop in E as [Hc Hx]. rewrite IH, Hx. simpl. by rewrite Hc.
Qed.

(** One pass never lengthens the text and does not change what the text
    squeezes to. *)
Lemma replace2_pass n : forall s,
  (String.length s <= n)%nat ->
  (String.length (Py.replace2 "/" "/" "/" s) <= String.length s)%nat
  /\ squeeze (Py.replace2 "/" "/" "/" s) = squeeze s.
Proof.
  induction n as [|n IH]; intros s Hn.
  - destruct s; [done | simpl in Hn; lia].
  - destruct s as [|c x]; [done |]. rewrite replace2_cons.
    destruct (Ascii.eqb c "/" && head_is_slash x) eqn:E.
    + apply andb_prop in E as [->%Ascii.eqb_eq Hx].
      destruct x as [|d s'']; [done |]. simpl in Hx.
      apply Ascii.eqb_eq in Hx as ->. simpl Py.drop.
      destruct (IH s'') as [H1 H2]; [simpl in Hn; lia |].
      split; [simpl in *; lia |].
      rewrite (squeeze_cons "/" (String "/" s'')). simpl andb. cbv iota.
      by rewrite !squeeze_cons, head_replace2, H2.
    + destruct (IH x) as [H1 H2]; [simpl in Hn; lia |].
      split; [simpl in *; lia |].
      by rewrite !squeeze_cons, head_replace2, H2.
Qed.

Lemma replace2_shorter s :
  contains2 "/" "/" s = true ->
  (String.length (Py.replace2 "/" "/" "/" s) < String.length s)%nat.
Proof.
  induction s as [|c x IH]; [done |]. rewrite contains2_cons, replace2_cons.
  destruct (Ascii.eqb c "/" && head_is_slash x) eqn:E; simpl orb.
  - intros _. apply andb_prop in E as [_ Hx].
    destruct x as [|d s'']; [done |]. simpl Py.drop.
    pose proof (replace2_pass _ s'' (le_n _)) as [H _]. simpl. lia.
  - intros H. apply IH in H. simpl in *. lia.
Qed.

Lemma squeeze_fixed s : contains2 "/" "/" s = false -> squeeze s = s.
Proof.
  induction s as [|c x IH]; [done |]. rewrite contains2_cons, squeeze_cons.
  destruct (Ascii.eqb c "/" && head_is_slash x); simpl orb; [done |].
  intros H. by rewrite IH.
Qed.

Lemma squeeze_clean s : contains2 "/" "/" (squeeze s) = false.
Proof.
  induction s as [|c x IH]; [done |]. rewrite squeeze_cons.
  destruct (Ascii.eqb c "/" && head_is_slash x) eqn:E; [done |].
  by rewrite contains2_cons, head_squeeze, E, IH.
Qed.

Lemma collapse_loop_squeeze fuel : forall url,
  (String.length url <= fuel)%nat -> collapse_loop fuel url = squeeze url.
Proof.
  induction fuel as [|fuel IH]; intros url Hlen.
  - by destruct url; [| simpl in Hlen; lia].
  - simpl. destruct (contains2 "/" "/" url) eqn:E.
    + pose proof (replace2_shorter _ E).
      pose proof (replace2_pass _ url (le_n _)) as [_ Hs].
      rewrite IH by lia. exact Hs.
    + by rewrite squeeze_fixed.
Qed.

(** X23.  [urljoin] joins the atoms that are not empty with slashes and
    reduces every run of slashes to one; an empty result becomes the single
    slash.  The loop of replacements computes this reduction. *)
Theorem urljoin_squeezes (atoms : list string) :
  urljoin atoms
  = (let url := squeeze (Py.join "/" (List.filter nonempty atoms)) in
     if nonempty url then url else "/")
  /\ urljoin_bytes atoms = urljoin atoms.
Proof.
  split; [| done]. unfold urljoin. by rewrite collapse_loop_squeeze.
Qed.

(** X24.  The result of [urljoin] is never empty and never holds two
    slashes in a row; joining it again changes nothing. *)
Theorem urljoin_normal_form (atoms : list string) :
  nonempty (urljoin atoms) = true
  /\ contains2 "/" "/" (urljoin atoms) = false
  /\ urljoin [urljoin atoms] = urljoin atoms.
Proof.
  assert (H1 : nonempty (urljoin atoms) = true).
  { unfold urljoin. by destruct (nonempty (collapse_loop _ _)) eqn:E. }
  assert (H2 : contains2 "/" "/" (urljoin atoms) = false).
  { unfold urljoin. rewrite collapse_loop_squeeze by done.
    destruct (nonempty (squeeze _)); [apply squeeze_clean | done]. }
  split_and!; [done | done |].
  destruct (urljoin_squeezes [urljoin atoms]) as [-> _]. simpl.
  rewrite H1. simpl. rewrite squeeze_fixed by done. by rewrite H1.
Qed.

End UrlJoin.

Lemma urljoin_squeezes_witness :
  urljoin ["/app/"; EmptyString; "/static//css"] = "/app/static/css".
Proof.
  rewrite (proj1 (urljoin_squeezes ["/app/"; EmptyString; "/static//css"])).
  reflexivity.
Defined.

(** * More on [get_ranges] *)

Section GetRangesMore.

Lemma ranges_loop_trace content_length specs : forall acc l,
  ranges_loop content_length specs acc = Ok (Some l) ->
  exists actions,
    Forall2 (fun p a => range_step content_length p = Ok a) specs actions
    /\ Forall (fun a => a <> ReturnNone) actions
    /\ l = acc ++ concat (map pairs_of actions).
Proof.
  induction specs as [|p specs IH]; simpl; intros acc l H.
  - injection H as <-. exists []. by rewrite app_nil_r.
  - destruct (range_step content_length p) as [[r| |]|] eqn:E; simpl in H;
      try done.
    + destruct (IH _ _ H) as (actions & H1 & H2 & ->).
      exists (Append r :: actions). split_and!.
      * by constructor.
      * by constructor.
      * by rewrite <- app_assoc.
    + destruct (IH _ _ H) as (actions & H1 & H2 & ->).
      exists (Continue :: actions). split_and!; [by constructor.. | done].
Qed.

(** X25.  The list [get_ranges] returns holds, in the order of the specs,
    the pair of every spec that yields one: each spec was read without error,
    none was a backwards or empty spec, and there are no more pairs than
    specs. *)
Theorem get_ranges_in_spec_order (hv u byteranges : string) (content_length : Z)
  (l : list (Z * Z)) :
  Py.cut "=" hv = Some (u, byteranges) ->
  get_ranges (Some hv) content_length = Ok (Some l) ->
  (exists actions,
     Forall2 (fun p a => range_step content_length p = Ok a)
             (Py.split "," byteranges) actions
     /\ Forall (fun a => a <> ReturnNone) actions
     /\ l = concat (map pairs_of actions))
  /\ (length l <= length (Py.split "," byteranges))%nat.
Proof.
  intros Hcut H. rewrite (get_ranges_cut _ _ _ _ Hcut) in H.
  destruct (ranges_loop_trace _ _ _ _ H) as (actions & H1 & H2 & ->).
  split; [by exists actions |]. simpl.
  rewrite (Forall2_length _ _ _ H1). clear.
  induction actions as [|[r| |] actions IH]; simpl; lia.
Qed.

Lemma ranges_loop_unpack content_length pre spec post : forall acc,
  Forall (fun p => exists a, range_step content_length p = Ok a /\ a <> ReturnNone)
         pre ->
  Py.count "-" spec = 0%nat ->
  ranges_loop content_length (pre ++ spec :: post) acc = Raise unpack_error.
Proof.
  induction pre as [|p pre IH]; simpl; intros acc Hpre Hspec.
  - unfold range_step, Py.split1. by rewrite cut_absent.
  - apply Forall_cons in Hpre as [(a & -> & Ha) Hpre]. simpl.
    destruct a; [by apply IH | by apply IH | done].
Qed.

(** X26.  A header value that is not empty and has no equals sign raises
    the [ValueError] of the failed unpacking, and so does a spec without a
    hyphen (an empty spec after a trailing comma included), when the specs
    before it are read without error and none of them ends the parse. *)
Theorem get_ranges_malformed_raises (hv : string) (content_length : Z) :
  nonempty hv = true ->
  (Py.count "=" hv = 0%nat ->
   get_ranges (Some hv) content_length = Raise unpack_error)
  /\ (forall u byteranges pre spec post,
        Py.cut "=" hv = Some (u, byteranges) ->
        Py.split "," byteranges = pre ++ spec :: post ->
        Forall (fun p => exists a, range_step content_length p = Ok a
                                   /\ a <> ReturnNone) pre ->
        Py.count "-" spec = 0%nat ->
        get_ranges (Some hv) content_length = Raise unpack_error).
Proof.
  intros Hne. split.
  - intros H. destruct hv as [|c s]; [done |].
    unfold get_ranges, Py.split1. by rewrite cut_absent.
  - intros u byteranges pre spec post Hcut Hsplit Hpre Hspec.
    rewrite (get_ranges_cut _ _ _ _ Hcut), Hsplit.
    by apply ranges_loop_unpack.
Qed.

End GetRangesMore.

Lemma get_ranges_in_spec_order_witness :
  (length [(0, 5); (8, 10)] <= length (Py.split "," "0-4,50-60,-2"))%nat.
Proof.
  apply (get_ranges_in_spec_order "bytes=0-4,50-60,-2" "bytes" "0-4,50-60,-2" 10
           [(0, 5); (8, 10)]); reflexivity.
Defined.

Lemma get_ranges_malformed_raises_witness :
  get_ranges (Some "bytes") 10 = Raise unpack_error
  /\ get_ranges (Some "bytes=0-4,") 10 = Raise unpack_error.
Proof.
  split.
  - apply (get_ranges_malformed_raises "bytes" 10); reflexivity.
  - assert (Hn : nonempty "bytes=0-4," = true) by reflexivity.
    apply (proj2 (get_ranges_malformed_raises "bytes=0-4," 10 Hn)
             "bytes" "0-4," ["0-4"] EmptyString []);
      [reflexivity | reflexivity | | reflexivity].
    apply Forall_cons. split; [| by apply Forall_nil].
    exists (Append (0, 5)). split; [reflexivity | discriminate].
Defined.

(** * Encoding header items *)

Section EncodeFacts.
Variable encodings : list codec.
Variable protocol : Z * Z.
Variable use_rfc_2047 : bool.
Variable utf_8 : list Z -> result (list Z).
Variable repr_text : list Z -> string.
Variable repr_encodings : string.

Local Abbreviation encode_ :=
  (encode encodings protocol use_rfc_2047 utf_8 repr_text repr_encodings).
Local Abbreviation encode_item :=
  (encode_header_item encodings protocol use_rfc_2047 utf_8 repr_text
     repr_encodings).
Local Abbreviation encode_items :=
  (encode_header_items encodings protocol use_rfc_2047 utf_8 repr_text
     repr_encodings).

Lemma translate_delete_sendable b :
  Forall sendable (translate_delete header_translate_deletechars b).
Proof.
  unfold translate_delete. apply Forall_forall. intros x Hx.
  apply list_elem_of_In, List.filter_In in Hx as [_ Hx].
  apply negb_true_iff in Hx. unfold sendable.
  split.
  - intros Hr. assert (existsb (Z.eqb x) header_translate_deletechars = true);
      [| congruence].
    apply existsb_exists. exists x. split; [| apply Z.eqb_refl].
    unfold header_translate_deletechars. apply in_or_app. left.
    apply in_map_iff. exists (Z.to_nat x). split; [lia |].
    apply in_seq. lia.
  - intros ->. by vm_compute in Hx.
Qed.

Lemma not_deleted x :
  sendable x -> existsb (Z.eqb x) header_translate_deletechars = false.
Proof.
  intros [Hx1 Hx2].
  apply not_true_iff_false. intros (y & Hy & ->%Z.eqb_eq)%existsb_exists.
  unfold header_translate_deletechars in Hy. apply in_app_or in Hy as [Hy | Hy].
  - apply in_map_iff in Hy as (n & <- & Hn%in_seq). lia.
  - destruct Hy as [<- | []]. done.
Qed.

Lemma translate_delete_id b :
  Forall sendable b -> translate_delete header_translate_deletechars b = b.
Proof.
  induction 1 as [|x b Hx Hb IH]; [done |].
  unfold translate_delete in *. cbn [List.filter].
  by rewrite (not_deleted x Hx), IH.
Qed.

(** X27.  Whatever is encoded for the wire holds no control character: no
    byte below 32 (carriage return and line feed among them) and no byte 127,
    in the name as in the value, for text and for bytes, with any codecs. *)
Theorem encoded_items_have_no_control_bytes
  (header_items : list (header_part * header_part))
  (out : list (list Z * list Z)) (item : header_part) (b : list Z) :
  encode_items header_items = Ok out ->
  encode_item item = Ok b ->
  Forall sendable b
  /\ Forall (fun kv => Forall sendable kv.1 /\ Forall sendable kv.2) out
  /\ length out = length header_items.
Proof.
  assert (Hitem : forall i r, encode_item i = Ok r -> Forall sendable r).
  { intros i r. unfold encode_header_item.
    destruct (match i with Text v => encode_ v | Bytes b0 => Ok b0 end);
      [| done].
    simpl. intros [= <-]. apply translate_delete_sendable. }
  intros Hout Hb. split; [by eapply Hitem |].
  revert out Hout. induction header_items as [|[k v] rest IH]; intros out; simpl.
  - by intros [= <-].
  - destruct (encode_item k) as [k'|] eqn:Ek; [| done].
    destruct (encode_item v) as [v'|] eqn:Ev; [| done]. simpl.
    destruct (encode_items rest) as [rest'|]; [| done]. simpl.
    intros [= <-]. destruct (IH _ eq_refl) as [H1 H2].
    split; [| by rewrite <- H2].
    constructor; [| done]. split; by eapply Hitem.
Qed.

End EncodeFacts.

Section Base64Facts.

Lemma base64_char_printable n : 0 <= n < 64 -> printable_ascii (base64_char n).
Proof.
  intros Hn. unfold printable_ascii.
  assert (H : List.forallb
                (fun k => let c := base64_char (Z.of_nat k) in
                          (32 <? c) && (c <? 127)) (seq 0 64) = true)
    by (vm_compute; reflexivity).
  rewrite List.forallb_forall in H.
  specialize (H (Z.to_nat n)). rewrite Z2Nat.id in H by lia.
  cbv zeta in H. apply andb_prop in H as [H1 H2]; [lia |].
  apply in_seq. lia.
Qed.

(** Induction three bytes at a time. *)
Lemma by_three (P : list Z -> Prop) :
  P [] -> (forall a, P [a]) -> (forall a b, P [a; b]) ->
  (forall a b c rest, P rest -> P (a :: b :: c :: rest)) ->
  forall data, P data.
Proof.
  intros H0 H1 H2 H3 data.
  assert (H : forall n (l : list Z), (length l <= n)%nat -> P l).
  { induction n as [|n IH]; intros l Hl.
    - destruct l; [done | simpl in Hl; lia].
    - destruct l as [|a [|b [|c rest]]]; auto.
      apply H3. apply IH. simpl in Hl. lia. }
  by apply (H (length data)).
Qed.

Lemma base64_groups_printable data :
  Forall is_byte data ->
  Forall (fun x => printable_ascii x \/ x = 61) (base64_groups data)
  /\ Z.of_nat (length (base64_groups data))
     = 4 * ((Z.of_nat (length data) + 2) / 3).
Proof.
  unfold is_byte.
  induction data as [|a|a b|a b c rest IH] using by_three; intros Hd.
  - by split; [constructor |].
  - apply Forall_cons in Hd as [Ha _]. split; [| done]. simpl.
    repeat (constructor; [first [by right | left; apply base64_char_printable;
                                 Z.div_mod_to_equations; lia] |]).
    constructor.
  - apply Forall_cons in Hd as [Ha Hd]. apply Forall_cons in Hd as [Hb _].
    split; [| done]. simpl.
    repeat (constructor; [first [by right | left; apply base64_char_printable;
                                 Z.div_mod_to_equations; lia] |]).
    constructor.
  - apply Forall_cons in Hd as [Ha Hd]. apply Forall_cons in Hd as [Hb Hd].
    apply Forall_cons in Hd as [Hc Hd]. destruct (IH Hd) as [IH1 IH2].
    split.
    + simpl.
      repeat (constructor; [left; apply base64_char_printable;
                            Z.div_mod_to_equations; lia |]).
      exact IH1.
    + change (base64_groups (a :: b :: c :: rest)) with
        (base64_char (a / 4) :: base64_char (a mod 4 * 16 + b / 16)
         :: base64_char (b mod 16 * 4 + c / 64) :: base64_char (c mod 64)
         :: base64_groups rest).
      simpl length. rewrite !Nat2Z.inj_succ, IH2.
      Z.div_mod_to_equations. lia.
Qed.

Lemma lstrip_byte_id x b : Forall (fun y => y <> x) b -> lstrip_byte x b = b.
Proof.
  destruct 1 as [|y b Hy Hb]; [done |]. simpl.
  by destruct (Z.eqb_spec y x).
Qed.

Lemma strip_newline_base64 data :
  Forall is_byte data ->
  strip_byte 10 (b2a_base64 data) = base64_groups data.
Proof.
  intros Hd. destruct (base64_groups_printable data Hd) as [Hp _].
  assert (Hne : Forall (fun y => y <> 10) (base64_groups data)).
  { eapply Forall_impl; [exact Hp |]. unfold printable_ascii. intros y; simpl. lia. }
  unfold strip_byte, b2a_base64. revert Hne.
  generalize (base64_groups data). intros g Hne.
  assert (Hrev : Forall (fun y => y <> 10) (rev g)).
  { apply Forall_forall. intros z Hz. rewrite Forall_forall in Hne. apply Hne.
    apply list_elem_of_In. apply list_elem_of_In in Hz. by apply in_rev. }
  destruct g as [|y g]; [done |].
  assert (lstrip_byte 10 ((y :: g) ++ [10]) = (y :: g) ++ [10]) as ->.
  { apply Forall_cons in Hne as [Hy _]. simpl. by destruct (Z.eqb_spec y 10). }
  rewrite rev_app_distr.
  change (rev [10] ++ rev (y :: g)) with (10 :: rev (y :: g)).
  change (lstrip_byte 10 (10 :: rev (y :: g)))
    with (lstrip_byte 10 (rev (y :: g))).
  by rewrite lstrip_byte_id, rev_involutive.
Qed.

End Base64Facts.

Section EncodePaths.
Variable protocol : Z * Z.
Variable use_rfc_2047 : bool.
Variable utf_8 : list Z -> result (list Z).
Variable repr_text : list Z -> string.
Variable repr_encodings : string.

Lemma latin_1_bytes v : Forall is_byte v -> latin_1 v = Some v.
Proof.
  intros Hv. unfold latin_1.
  assert (List.forallb (fun c => (0 <=? c) && (c <? 256)) v = true) as ->; [| done].
  apply List.forallb_forall. intros x Hx%list_elem_of_In.
  rewrite Forall_forall in Hv. specialize (Hv x Hx). unfold is_byte in Hv. lia.
Qed.

(** X28.  With the encodings of the module (ISO-8859-1 alone), a text whose
    code points are all below 256 is sent byte for code point, with the
    control characters deleted; a text without control characters is sent
    unchanged, and bytes are treated like the text of the same code points. *)
Theorem encode_latin_1_text (v : list Z) :
  Forall is_byte v ->
  encode [latin_1] protocol use_rfc_2047 utf_8 repr_text repr_encodings v = Ok v
  /\ encode_header_item [latin_1] protocol use_rfc_2047 utf_8 repr_text
       repr_encodings (Text v)
     = Ok (translate_delete header_translate_deletechars v)
  /\ encode_header_item [latin_1] protocol use_rfc_2047 utf_8 repr_text
       repr_encodings (Bytes v)
     = Ok (translate_delete header_translate_deletechars v)
  /\ (Forall sendable v ->
      encode_header_item [latin_1] protocol use_rfc_2047 utf_8 repr_text
        repr_encodings (Text v) = Ok v).
Proof.
  intros Hv. unfold encode_header_item, encode. simpl.
  rewrite (latin_1_bytes v Hv). simpl. split_and!; try done.
  intros Hs. by rewrite translate_delete_id.
Qed.

End EncodePaths.

Section EncodeFallback.
Variable encodings : list codec.
Variable utf_8 : list Z -> result (list Z).
Variable repr_text : list Z -> string.
Variable repr_encodings : string.


End EncodeFallback.

Lemma encoded_items_have_no_control_bytes_witness :
  Forall sendable (bytes_of "X-Note")
  /\ Forall (fun kv : list Z * list Z => Forall sendable kv.1 /\ Forall sendable kv.2)
       [(bytes_of "X-Note", bytes_of "twolines")].
Proof.
  destruct (encoded_items_have_no_control_bytes [latin_1] (1, 1) true
              utf_8_encode (fun _ => EmptyString) EmptyString
              [(Text (bytes_of "X-Note"), Text [116; 119; 111; 13; 10; 108; 105; 110; 101; 115])]
              [(bytes_of "X-Note", bytes_of "twolines")]
              (Bytes (bytes_of "X-Note")) (bytes_of "X-Note")
              eq_refl eq_refl) as (H1 & H2 & _).
  exact (conj H1 H2).
Defined.

Lemma encode_latin_1_text_witness :
  encode_header_item [latin_1] (1, 1) true utf_8_encode (fun _ => EmptyString)
    EmptyString (Text [99; 97; 102; 233; 13; 10])
  = Ok [99; 97; 102; 233].
Proof.
  assert (Hb : Forall is_byte [99; 97; 102; 233; 13; 10]).
  { repeat (apply Forall_cons; split; [unfold is_byte; lia |]). apply Forall_nil_2. }
  destruct (encode_latin_1_text (1, 1) true utf_8_encode (fun _ => EmptyString)
              EmptyString [99; 97; 102; 233; 13; 10] Hb) as (_ & H & _).
  exact H.
Defined.


(** * Rendering an element and parsing it back *)

Section RoundTrip.

Lemma forallb_app p a b :
  Py.forallb p (a +:+ b) = Py.forallb p a && Py.forallb p b.
Proof.
  induction a as [|c a IH]; [done |].
  change (String c a +:+ b) with (String c (a +:+ b)). simpl.
  by rewrite IH, andb_assoc.
Qed.

Lemma length_append a b :
  String.length (a +:+ b) = (String.length a + String.length b)%nat.
Proof.
  induction a as [|c a IH]; [done |].
  change (String c a +:+ b) with (String c (a +:+ b)). simpl. by rewrite IH.
Qed.

Lemma take_append a b : Py.take (String.length a) (a +:+ b) = a.
Proof.
  induction a as [|c a IH]; [by destruct b |].
  change (String c a +:+ b) with (String c (a +:+ b)). simpl. by rewrite IH.
Qed.

Lemma drop_append a b : Py.drop (String.length a) (a +:+ b) = b.
Proof.
  induction a as [|c a IH]; [by destruct b |].
  change (String c a +:+ b) with (String c (a +:+ b)). simpl. exact IH.
Qed.

Lemma value_chars t :
  Py.forallb value_char t = true ->
  Py.count ";" t = 0%nat /\ Py.count Py.dquote t = 0%nat /\ Py.strip t = t.
Proof.
  intros H. split_and!.
  - eapply forallb_count; [exact H | done].
  - eapply forallb_count; [exact H | done].
  - apply strip_id. eapply forallb_impl; [| exact H].
    intros c. unfold value_char. by destruct (Py.isspace c).
Qed.

Lemma name_chars k :
  Py.forallb name_char k = true ->
  Py.forallb value_char k = true /\ Py.count "=" k = 0%nat /\ Py.lower k = k.
Proof.
  intros H. split_and!.
  - eapply forallb_impl; [| exact H]. intros c. unfold name_char.
    by destruct (value_char c).
  - eapply forallb_count; [exact H |]. done.
  - induction k as [|c k IH]; [done |]. simpl in *.
    apply andb_prop in H as [Hc Hk]. rewrite (IH Hk). f_equal.
    unfold name_char in Hc. apply andb_prop in Hc as [_ Hc].
    by apply Ascii.eqb_eq in Hc.
Qed.

Lemma find_end_skip t : forall s i rest,
  Py.count ";" t = 0%nat ->
  Cgi.find_end s i (t +:+ rest) = Cgi.find_end s (i + String.length t) rest.
Proof.
  induction t as [|c t IH]; intros s i rest H.
  - simpl. by rewrite Nat.add_0_r.
  - change (String c t +:+ rest) with (String c (t +:+ rest)). simpl in *.
    destruct (Ascii.eqb c ";"); [done |]. simpl.
    rewrite IH by done. f_equal. lia.
Qed.

(** The first parameter of [;t<rest>] is [t], when [t] is plain and the rest
    is empty or starts a new parameter. *)
Lemma parseparam_step n t rest :
  Py.forallb value_char t = true ->
  (rest = EmptyString \/ exists r, rest = String ";" r) ->
  Cgi.parseparam_steps (S n) (String ";" (t +:+ rest))
  = t :: Cgi.parseparam_steps n rest.
Proof.
  intros Ht Hrest. destruct (value_chars t Ht) as (Hsemi & Hq & Hstrip).
  simpl.
  assert (Hend : default (String.length (t +:+ rest))
                   (Cgi.find_end (t +:+ rest) 0 (t +:+ rest))
                 = String.length t).
  { rewrite find_end_skip by done. simpl.
    destruct Hrest as [-> | [r ->]].
    - simpl. by rewrite append_empty.
    - simpl. change (String ";" r) with (";" +:+ r) at 1.
      rewrite take_append, Hq.
      assert (Py.count2 Py.backslash Py.dquote t = 0%nat) as ->.
      { clear -Hq. induction t as [|c [|d t] IH]; [done | done |].
        simpl in Hq.
        change (Py.count2 Py.backslash Py.dquote (String c (String d t)))
          with (if Ascii.eqb c Py.backslash && Ascii.eqb d Py.dquote
                then S (Py.count2 Py.backslash Py.dquote t)
                else Py.count2 Py.backslash Py.dquote (String d t)).
        destruct (Ascii.eqb c Py.dquote); [done |].
        destruct (Ascii.eqb d Py.dquote) eqn:Ed; [done |].
        rewrite andb_false_r. apply IH. simpl. by rewrite Ed. }
      simpl. by rewrite orb_true_r. }
  rewrite Hend, take_append, drop_append. by rewrite Hstrip.
Qed.

Lemma str_params_text ps :
  HeaderElement.str_params HeaderElement.str_param (text_params ps)
  = HeaderElement.str_params id ps.
Proof.
  induction ps as [|[k v] ps IH]; [done |]. simpl. by rewrite IH.
Qed.

Lemma str_params_shape ps :
  HeaderElement.str_params id ps = EmptyString
  \/ exists r, HeaderElement.str_params (V := string) id ps = String ";" r.
Proof. destruct ps as [|[k v] ps]; [by left | right; by eexists]. Qed.

Lemma parseparam_params ps : forall n,
  forallb plain_param ps = true ->
  Cgi.parseparam_steps (String.length (HeaderElement.str_params id ps) + n)
    (HeaderElement.str_params id ps)
  = map (fun '(k, v) => k +:+ "=" +:+ v) ps.
Proof.
  induction ps as [|[k v] ps IH]; intros n Hps.
  - simpl. by destruct n.
  - simpl in Hps. apply andb_prop in Hps as [Hkv Hps].
    apply andb_prop in Hkv as [Hk Hv]. simpl in Hk, Hv.
    destruct (name_chars k Hk) as (Hk' & _ & _).
    change (HeaderElement.str_params id ((k, v) :: ps))
      with (";" +:+ k +:+ "=" +:+ v +:+ HeaderElement.str_params id ps).
    replace (";" +:+ k +:+ "=" +:+ v +:+ HeaderElement.str_params id ps)
      with (String ";" ((k +:+ "=" +:+ v) +:+ HeaderElement.str_params id ps))
      by (by rewrite !append_assoc).
    cbn [String.length Nat.add].
    rewrite parseparam_step; [| | apply str_params_shape].
    + simpl map. f_equal.
      rewrite length_append, <- Nat.add_assoc, (Nat.add_comm (String.length _)).
      rewrite (parseparam_steps_enough _
                 (String.length (HeaderElement.str_params id ps) + n)); try lia.
      by apply IH.
    + by rewrite !forallb_app, Hk', Hv.
Qed.

Lemma unquote_value_plain v :
  Py.count Py.dquote v = 0%nat -> Cgi.unquote_value v = v.
Proof.
  destruct v as [|c rest]; [done |]. simpl. unfold Cgi.unquote_value.
  destruct (Ascii.eqb c Py.dquote) eqn:Ec; [done |]. intros _.
  destruct (String.length rest) as [|n]; [done |].
  by destruct (String.get (S n - 1) rest).
Qed.

Lemma dict_set_fresh (k v : string) (d : list (string * string)) :
  k ∉ map fst d -> dict_set k v d = d ++ [(k, v)].
Proof.
  induction d as [|[k' v'] d IH]; intros Hk; [done |]. simpl in *.
  apply not_elem_of_cons in Hk as [Hne Hk].
  destruct (String.eqb_spec k' k); [done |]. by rewrite IH.
Qed.

Lemma params_of_params ps : forall acc,
  forallb plain_param ps = true -> NoDup (map fst (acc ++ ps)) ->
  Cgi.params_of (map (fun '(k, v) => k +:+ "=" +:+ v) ps) acc = acc ++ ps.
Proof.
  induction ps as [|[k v] ps IH]; intros acc Hps Hnd; simpl.
  - by rewrite app_nil_r.
  - simpl in Hps. apply andb_prop in Hps as [Hkv Hps].
    apply andb_prop in Hkv as [Hk Hv]. simpl in Hk, Hv.
    destruct (name_chars k Hk) as (Hk' & Heq & Hlow).
    destruct (value_chars k Hk') as (_ & _ & Hks).
    destruct (value_chars v Hv) as (_ & Hvq & Hvs).
    change ("=" +:+ v) with (String "=" v). rewrite cut_app by done.
    rewrite Hks, Hlow, Hvs, unquote_value_plain by done.
    rewrite map_app in Hnd. simpl in Hnd.
    rewrite dict_set_fresh.
    + rewrite IH; [by rewrite <- app_assoc | done |].
      by rewrite <- app_assoc, map_app.
    + apply NoDup_app in Hnd as (_ & Hnd & _).
      intros Hin. apply (Hnd k Hin). by apply elem_of_cons; left.
Qed.

(** X30.  Rendering and parsing are inverse on plain elements: when the
    value and the parameter values hold no white space, semicolon or double
    quote, and the parameter names moreover no equals sign and no upper-case
    letter (no character that [str.lower] changes) and are pairwise distinct,
    [from_str(str(e))] is [e]. *)
Theorem from_str_str_round_trip (v : string) (ps : list (string * string)) :
  Py.forallb value_char v = true -> forallb plain_param ps = true ->
  NoDup (map fst ps) ->
  HeaderElement.from_str
    (HeaderElement.str (mkHeaderElement v (text_params ps)))
  = mkHeaderElement v (text_params ps).
Proof.
  intros Hv Hps Hnd.
  unfold HeaderElement.str. simpl value. simpl params.
  rewrite str_params_text.
  unfold HeaderElement.from_str, HeaderElement.parse, Cgi.parse_header,
    Cgi._parseparam.
  cbn [String.length].
  rewrite parseparam_step; [| done | apply str_params_shape].
  rewrite length_append, (Nat.add_comm (String.length v)).
  rewrite parseparam_params by done.
  by rewrite (params_of_params ps []).
Qed.

End RoundTrip.

Lemma from_str_str_round_trip_witness :
  HeaderElement.from_str "text/html;level=1;charset=utf-8"
  = mkHeaderElement "text/html"
      [("level", PStr "1"); ("charset", PStr "utf-8")].
Proof.
  apply (from_str_str_round_trip "text/html"
           [("level", "1"); ("charset", "utf-8")]);
    [reflexivity | reflexivity |].
  apply NoDup_cons. split.
  - intros H. apply elem_of_cons in H as [H | H]; [discriminate H |].
    apply elem_of_nil in H. exact H.
  - apply NoDup_cons. split; [| apply NoDup_nil_2].
    intros H. apply elem_of_nil in H. exact H.
Defined.
